(** * PeopleStrong MCP server: a shallow embedding of [tools.ts] and [main.ts]

    The development follows the two source files of the server:

    - [tools.ts]: [normalizeFieldCode], [getWeather], the two credential
      exchanges ([fetchPSToken], [getPSTokenWithApiKey]), the integration
      call [psPost] and the twelve HR lookups built on them;
    - [main.ts]: the bearer-token middleware, the session map [streams], the
      handlers of [GET /sse] and [POST /messages], [runChatLLM], the in-code
      dispatcher [runWithTools] and [writeFrame].

    JavaScript strings are modelled as Rocq strings, the bytes of their
    UTF-8 encoding; white space is that of ECMAScript, read off those bytes.
    JSON numbers are modelled on the integers.  Everything the process does
    not own—the HTTP peer, the completion provider, the JSON parser, the
    token library and the MCP transport—is read from oracles, and every call
    that leaves the process is logged in a trace of [effect]s. *)

From Stdlib Require Import ZArith Ascii String List Bool Lia.
From stdpp Require Import base option list gmap strings pretty.

(** ** JavaScript strings *)

Module JsString.

(** The double quote, which a literal cannot hold. *)
Definition dquote : string := String (Ascii.ascii_of_nat 34) EmptyString.

(** [String.prototype.startsWith]. *)
Definition startsWith (s p : string) : bool := String.prefix p s.

(** The string of the bytes [l]. *)
Definition bytes (l : list nat) : string :=
  fold_right (fun n s => String (Ascii.ascii_of_nat n) s) EmptyString l.

(** The characters [\s] matches and [trim] strips, the WhiteSpace and
    LineTerminator of ECMAScript, in UTF-8: TAB, LF, VT, FF, CR, SPACE,
    U+00A0, U+1680, U+2000 to U+200A, U+2028, U+2029, U+202F, U+205F, U+3000
    and U+FEFF. *)
Definition white_space : list string :=
  map bytes
    [ [9]; [10]; [11]; [12]; [13]; [32];
      [194; 160];
      [225; 154; 128];
      [226; 128; 128]; [226; 128; 129]; [226; 128; 130]; [226; 128; 131];
      [226; 128; 132]; [226; 128; 133]; [226; 128; 134]; [226; 128; 135];
      [226; 128; 136]; [226; 128; 137]; [226; 128; 138];
      [226; 128; 168]; [226; 128; 169]; [226; 128; 175];
      [226; 129; 159];
      [227; 128; 128];
      [239; 187; 191] ].

(** The white-space character [s] starts with, if any. *)
Definition white_space_at (s : string) : option string :=
  find (fun sp => String.prefix sp s) white_space.

Definition lower_char (c : ascii) : ascii :=
  let n := Ascii.nat_of_ascii c in
  if ((65 <=? n) && (n <=? 90))%nat then Ascii.ascii_of_nat (n + 32) else c.

(** The two characters outside ASCII whose lower case reaches into ASCII:
    U+212A KELVIN SIGN gives [k], and U+0130 gives [i] followed by U+0307. *)
Definition kelvin_sign : string := bytes [226; 132; 170].
Definition capital_i_dotted : string := bytes [196; 176].
Definition i_dot_above : string := bytes [105; 204; 135].

(** [toLowerCase], reading [s] with [skip] bytes of the current character
    still to pass. *)
Fixpoint toLowerCase_from (skip : nat) (s : string) : string :=
  match s with
  | EmptyString => EmptyString
  | String c r =>
      match skip with
      | S k => toLowerCase_from k r
      | O =>
          if String.prefix kelvin_sign s then String "k" (toLowerCase_from 2 r)
          else if String.prefix capital_i_dotted s
               then i_dot_above +:+ toLowerCase_from 1 r
               else String (lower_char c) (toLowerCase_from 0 r)
      end
  end.

(** [String.prototype.toLowerCase].  Every other character outside ASCII is
    left as it is: its lower case is again outside ASCII, and the sources
    compare lower-cased text with ASCII words only. *)
Definition toLowerCase (s : string) : string := toLowerCase_from 0 s.

Fixpoint remove_whitespace_from (skip : nat) (s : string) : string :=
  match s with
  | EmptyString => EmptyString
  | String c r =>
      match skip with
      | S k => remove_whitespace_from k r
      | O =>
          match white_space_at s with
          | Some sp => remove_whitespace_from (String.length sp - 1) r
          | None => String c (remove_whitespace_from 0 r)
          end
      end
  end.

(** [s.replace(/\s+/g, "")]: every run of white space is deleted. *)
Definition remove_whitespace (s : string) : string := remove_whitespace_from 0 s.

Fixpoint trimStart_from (skip : nat) (s : string) : string :=
  match s with
  | EmptyString => EmptyString
  | String c r =>
      match skip with
      | S k => trimStart_from k r
      | O =>
          match white_space_at s with
          | Some sp => trimStart_from (String.length sp - 1) r
          | None => s
          end
      end
  end.

Definition trimStart (s : string) : string := trimStart_from 0 s.

(** [s] holds nothing but white space. *)
Definition blank (s : string) : bool :=
  match remove_whitespace s with EmptyString => true | String _ _ => false end.

(** [trimEnd] cuts [s] where what remains is blank. *)
Fixpoint trimEnd (s : string) : string :=
  match s with
  | EmptyString => EmptyString
  | String c r => if blank s then EmptyString else String c (trimEnd r)
  end.

(** [String.prototype.trim]. *)
Definition trim (s : string) : string := trimEnd (trimStart s).

(** Truthiness of a string: only the empty string is falsy. *)
Definition nonempty (s : string) : bool :=
  match s with EmptyString => false | String _ _ => true end.

End JsString.

Import JsString.

(** ** [tools.ts]: field-code normalisation *)

(** The lower-cased, space-free key the rules are matched on
    ([fieldCode.toLowerCase().replace(/\s+/g, "")]). *)
Definition fieldCode_key (fieldCode : string) : string :=
  remove_whitespace (toLowerCase fieldCode).

Definition normalizeFieldCode (fieldCode : string) : string :=
  let code := fieldCode_key fieldCode in
  if startsWith code "offer" then "Offered Date"
  else if startsWith code "birth" || startsWith code "dob" then "Birth Date"
  else if startsWith code "join" then "Date Of Joining"
  else if startsWith code "confirmation" then "Confirmation Date"
  else if startsWith code "relieving" then "Date Of Relieving"
  else if startsWith code "retirement" then "Retirement Date"
  else if startsWith code "l1" then "L1ManagerName"
  else if startsWith code "l2" then "L2ManagerName"
  else fieldCode.

(** The eight canonical API field names the rules produce. *)
Definition canonical_field_names : list string :=
  [ "Offered Date"; "Birth Date"; "Date Of Joining"; "Confirmation Date";
    "Date Of Relieving"; "Retirement Date"; "L1ManagerName"; "L2ManagerName" ].


(** ** JSON values and the JavaScript operators the sources apply to them *)

Set Warnings "-register-all".

(** A value produced by [JSON.parse] (or by [express.json()]).  A parsed
    object carries each key once; [JObj] lists the fields in source order. *)
Inductive json : Type :=
| JNull
| JBool (b : bool)
| JNum (n : Z)
| JStr (s : string)
| JArr (items : list json)
| JObj (fields : list (string * json)).

(** A JavaScript value read out of such data: [None] is [undefined]. *)
Definition jsval : Type := option json.

Module Js.

(** Field of an object literal, first match. *)
Fixpoint field (fields : list (string * json)) (k : string) : jsval :=
  match fields with
  | [] => None
  | (k', v) :: rest => if String.eqb k k' then Some v else field rest k
  end.

(** [{...o, k: v}]: the key keeps its place when [o] has it already,
    and is appended otherwise. *)
Fixpoint spread_set (o : list (string * json)) (k : string) (v : json)
  : list (string * json) :=
  match o with
  | [] => [(k, v)]
  | (k', v') :: rest =>
      if String.eqb k k' then (k', v) :: rest else (k', v') :: spread_set rest k v
  end.

(** [v.k] where [v] is neither [null] nor [undefined]: primitives and
    arrays have none of the keys the sources read. *)
Definition get (v : jsval) (k : string) : jsval :=
  match v with
  | Some (JObj fields) => field fields k
  | _ => None
  end.

(** [null] and [undefined]. *)
Definition nullish (v : jsval) : bool :=
  match v with
  | None | Some JNull => true
  | _ => false
  end.

(** ToBoolean. *)
Definition truthy (v : jsval) : bool :=
  match v with
  | None | Some JNull => false
  | Some (JBool b) => b
  | Some (JNum n) => negb (n =? 0)%Z
  | Some (JStr s) => nonempty s
  | Some (JArr _) | Some (JObj _) => true
  end.

(** [a || b]. *)
Definition or (a b : jsval) : jsval := if truthy a then a else b.

(** [a ?? b]. *)
Definition coalesce (a b : jsval) : jsval := if nullish a then b else a.

(** [Array.isArray]. *)
Definition isArray (v : jsval) : bool :=
  match v with Some (JArr _) => true | _ => false end.

(** [String(v)] on a JSON value; array elements are joined by a comma,
    [null] elements printing as nothing. *)
Fixpoint to_string (v : json) : string :=
  match v with
  | JNull => "null"
  | JBool true => "true"
  | JBool false => "false"
  | JNum n => pretty n
  | JStr s => s
  | JArr items =>
      (fix join (l : list json) : string :=
         match l with
         | [] => EmptyString
         | x :: rest =>
             let sx := match x with JNull => EmptyString | _ => to_string x end in
             match rest with
             | [] => sx
             | _ => sx +:+ "," +:+ join rest
             end
         end) items
  | JObj _ => "[object Object]"
  end.

(** [String(v)]. *)
Definition String (v : jsval) : string :=
  match v with
  | None => "undefined"
  | Some j => to_string j
  end.

Definition hex_digit (n : nat) : ascii :=
  Ascii.ascii_of_nat (if (n <? 10)%nat then 48 + n else 87 + n).

(** One character inside a JSON string literal. *)
Definition escape_char (c : ascii) : string :=
  let n := Ascii.nat_of_ascii c in
  let one (a : ascii) := String.String a EmptyString in
  if (n =? 34)%nat then "\" +:+ dquote
  else if (n =? 92)%nat then "\\"
  else if (n =? 8)%nat then "\b"
  else if (n =? 9)%nat then "\t"
  else if (n =? 10)%nat then "\n"
  else if (n =? 12)%nat then "\f"
  else if (n =? 13)%nat then "\r"
  else if (n <? 32)%nat then "\u00" +:+ one (hex_digit (n / 16)) +:+ one (hex_digit (n mod 16))
  else one c.

Fixpoint escape (s : string) : string :=
  match s with
  | EmptyString => EmptyString
  | String.String c rest => escape_char c +:+ escape rest
  end.

Definition quote (s : string) : string := dquote +:+ escape s +:+ dquote.

(** [JSON.stringify(v)], without indentation. *)
Fixpoint stringify (v : json) : string :=
  match v with
  | JNull => "null"
  | JBool true => "true"
  | JBool false => "false"
  | JNum n => pretty n
  | JStr s => quote s
  | JArr items =>
      "[" +:+
      (fix elems (l : list json) : string :=
         match l with
         | [] => EmptyString
         | x :: rest =>
             match rest with
             | [] => stringify x
             | _ => stringify x +:+ "," +:+ elems rest
             end
         end) items
      +:+ "]"
  | JObj fields =>
      "{" +:+
      (fix members (l : list (string * json)) : string :=
         match l with
         | [] => EmptyString
         | (k, x) :: rest =>
             match rest with
             | [] => quote k +:+ ":" +:+ stringify x
             | _ => quote k +:+ ":" +:+ stringify x +:+ "," +:+ members rest
             end
         end) fields
      +:+ "}"
  end.

(** [a.slice(0, n)]. *)
Definition slice0 (n : nat) (a : list json) : list json := take n a.

End Js.

(** ** Results, effects and the world outside the process *)

(** What an awaited call yields: a value, or a thrown [Error], of which
    the sources only ever read [message]. *)
Inductive outcome (A : Type) : Type :=
| Return (a : A)
| Throw (message : string).

Arguments Return {A} a.
Arguments Throw {A} message.

Inductive request_body : Type :=
| NoBody
| FormBody (fields : list (string * string))
| TextBody (text : string).

(** The arguments of one [fetch]; [rq_deadline] is the delay of the timer
    that aborts [rq]'s signal. *)
Record http_request : Type := {
  rq_method : string;
  rq_url : string;
  rq_headers : list (string * string);
  rq_body : request_body;
  rq_deadline : option Z
}.

(** A [Response]: its status line, and what [text()] and [json()] yield. *)
Record http_response : Type := {
  res_status : Z;
  res_text : outcome string;
  res_json : outcome json
}.

(** [res.ok]: the status is in the range 200-299. *)
Definition res_ok (res : http_response) : bool :=
  ((200 <=? res_status res) && (res_status res <=? 299))%Z.

(** [await res.text().catch(() => "")]. *)
Definition text_or_empty (res : http_response) : string :=
  match res_text res with
  | Return txt => txt
  | Throw _ => EmptyString
  end.

Record tool_call : Type := {
  call_id : string;
  call_name : string;
  call_arguments : string
}.

(** The [message] of a completion choice. *)
Record assistant_message : Type := {
  msg_content : option string;
  msg_tool_calls : option (list tool_call)
}.

Inductive chat_message : Type :=
| SystemMessage (content : string)
| UserMessage (content : string)
| AssistantMessage (m : assistant_message)
| ToolMessage (name tool_call_id : string) (content : jsval).

(** The argument of [openai.chat.completions.create]; [cr_tools] lists the
    names of the declared functions. *)
Record chat_request : Type := {
  cr_model : string;
  cr_tool_choice : option string;
  cr_tools : list string;
  cr_messages : list chat_message
}.

(** [completion.choices]: each choice may or may not carry a message. *)
Definition completion : Type := list (option assistant_message).

(** An [SSEServerTransport], told apart by the connection it writes to. *)
Record transport : Type := { connection : nat }.

(** The callbacks [handlePostMessage] may fire while it runs. *)
Inductive callback : Type :=
| onAssistantToken (token : string) (last : bool)
| onAssistantMessage (msg : list (string * json))
| onToolResult (msg : list (string * json)).

(** The body of a [POST /messages] as [express.json()] leaves it, with the
    two query parameters the handler reads. *)
Record post_request : Type := {
  query_sessionId : jsval;
  query_id : jsval;
  body : list (string * json)
}.

(** Everything observable from outside, in program order. *)
Inductive effect : Type :=
| Fetch (rq : http_request)
| Create (cr : chat_request)
| Invoke (handler : string) (args : list jsval)
| HandlePostMessage (t : transport) (req : post_request)
| Send (t : transport) (frame : list (string * json))
| Connect (t : transport)
| SetHeader (name value : string)
| Respond (status : Z) (text : string).

(** The oracles: the HTTP peer, the completion provider, [JSON.parse],
    [process.env], the MCP transport's reaction to a posted message (the
    callbacks it fires, then how its [handlePostMessage] settles), and the
    weather handler (whose body builds a wttr.in request and formats its
    reply; it is opaque to every property below). *)
Record world : Type := {
  http : http_request -> outcome http_response;
  openai : chat_request -> outcome completion;
  JSON_parse : string -> outcome json;
  env : string -> option string;
  mcp_callbacks : transport -> post_request -> list callback;
  mcp_settles : transport -> post_request -> outcome unit;
  fetchWeather : jsval -> outcome string
}.

(** A computation: the effects it performed, and how it ended. *)
Definition M (A : Type) : Type := (list effect * outcome A)%type.

Definition trace {A : Type} (m : M A) : list effect := fst m.
Definition result {A : Type} (m : M A) : outcome A := snd m.

Definition ret {A : Type} (a : A) : M A := ([], Return a).
Definition throw {A : Type} (message : string) : M A := ([], Throw message).
Definition emit (e : effect) : M unit := ([e], Return tt).
Definition await {A : Type} (e : effect) (o : outcome A) : M A := ([e], o).

Definition bind {A B : Type} (m : M A) (k : A -> M B) : M B :=
  match m with
  | (tr, Return a) => let (tr', r) := k a in (tr ++ tr', r)
  | (tr, Throw e) => (tr, Throw e)
  end.

(** [try { body } catch (err) { handler(err.message) }]. *)
Definition try_catch {A : Type} (body : M A) (handler : string -> M A) : M A :=
  match body with
  | (tr, Return a) => (tr, Return a)
  | (tr, Throw e) => let (tr', r) := handler e in (tr ++ tr', r)
  end.

#[global] Instance M_ret : MRet M := @ret.
#[global] Instance M_bind : MBind M := fun A B k m => bind m k.

(** [v.k], which throws a [TypeError] when [v] is [null] or [undefined]. *)
Definition member (v : jsval) (k : string) : M jsval :=
  match v with
  | None => throw ("Cannot read properties of undefined (reading '" +:+ k +:+ "')")
  | Some JNull => throw ("Cannot read properties of null (reading '" +:+ k +:+ "')")
  | _ => ret (Js.get v k)
  end.

Definition fetch (w : world) (rq : http_request) : M http_response :=
  await (Fetch rq) (http w rq).

(** [await res.json()]. *)
Definition await_json (res : http_response) : M json := ([], res_json res).

Definition create (w : world) (cr : chat_request) : M completion :=
  await (Create cr) (openai w cr).

(** Frames written on the transports, in order. *)
Definition frames (tr : list effect) : list (transport * list (string * json)) :=
  omap (fun e => match e with Send t f => Some (t, f) | _ => None end) tr.

(** Requests made to the completion provider, in order. *)
Definition completions (tr : list effect) : list chat_request :=
  omap (fun e => match e with Create cr => Some cr | _ => None end) tr.

(** Tool handlers entered, in order. *)
Definition invocations (tr : list effect) : list string :=
  omap (fun e => match e with Invoke h _ => Some h | _ => None end) tr.

(** Unfolds the plumbing of [M] so that a computation reads as a cascade of
    matches on the oracles' answers. *)
Ltac run_M :=
  unfold fetch, create, await, await_json, member, emit, ret, throw,
    mbind, M_bind, bind, try_catch, result, trace.

(** ** [tools.ts]: credential exchange *)

Definition default_timeoutMs : Z := 8000.

(** The message of the [Error] with which an expired timer aborts the
    request: [fetch] rejects with it. *)
Definition timed_out : string := "Request timed out".

Definition token_endpoint : string :=
  "https://uat-auth.peoplestrong.com/auth/realms/3/protocol/openid-connect/token".

Definition fetchPSToken_request (client_id client_secret : jsval) (timeoutMs : Z)
  : http_request :=
  {| rq_method := "POST";
     rq_url := token_endpoint;
     rq_headers := [("Content-Type", "application/x-www-form-urlencoded")];
     rq_body := FormBody [("grant_type", "client_credentials");
                          ("client_id", Js.String client_id);
                          ("client_secret", Js.String client_secret)];
     rq_deadline := Some timeoutMs |}.

(** The body of [fetchPSToken]; [missing] is the message thrown when the
    reply has no usable [access_token] (the copy of the function kept in
    [main.ts] words it differently). *)
Definition fetchPSToken_with (missing : string) (w : world)
    (client_id client_secret : jsval) (timeoutMs : Z) : M jsval :=
  try_catch
    (res ← fetch w (fetchPSToken_request client_id client_secret timeoutMs);
     _ ← (if negb (res_ok res)
          then throw ("PeopleStrong responded " +:+ pretty (res_status res)
                      +:+ ": " +:+ text_or_empty res)
          else ret tt);
     json ← await_json res;
     access_token ← member (Some json) "access_token";
     if negb (Js.truthy access_token) then throw missing
     else ret access_token)
    (fun message => throw ("fetchPSToken failed: " +:+ message)).

Definition fetchPSToken : world -> jsval -> jsval -> Z -> M jsval :=
  fetchPSToken_with "No access_token in response".

Definition playground_endpoint : string :=
  "https://s2demo-admin.uat.peoplestrong.com/api/integration/client-config/kong/fetchPlaygroundInitObject".

Record playground_args : Type := {
  organizationId : Z;
  sysModuleName : string;
  routePath : string
}.

Definition getPSTokenWithApiKey_request (w : world) (args : playground_args)
    (timeoutMs : Z) : http_request :=
  {| rq_method := "POST";
     rq_url := playground_endpoint;
     rq_headers := [("Accept", "*/*");
                    ("Content-Type", "application/json");
                    ("session-Token", default EmptyString (env w "PS_SESSION_TOKEN"))];
     rq_body := TextBody (Js.stringify (JObj
                  [("body", JNull); ("subject", JNull); ("sendTo", JNull);
                   ("cc", JNull); ("bcc", JNull);
                   ("routePath", JStr (routePath args));
                   ("organizationId", JNum (organizationId args));
                   ("sysModuleName", JStr (sysModuleName args))]));
     rq_deadline := Some timeoutMs |}.

(** The credential pair; either member is whatever the reply held. *)
Record credential : Type := {
  apiKey : jsval;
  accessToken : jsval
}.

Definition getPSTokenWithApiKey (w : world) (args : playground_args)
    (timeoutMs : Z) : M credential :=
  try_catch
    (res ← fetch w (getPSTokenWithApiKey_request w args timeoutMs);
     _ ← (if negb (res_ok res)
          then throw ("HTTP " +:+ pretty (res_status res) +:+ ": " +:+ text_or_empty res)
          else ret tt);
     json ← await_json res;
     k ← member (Some json) "apiKey";
     t ← member (Some json) "accessToken";
     ret {| apiKey := Js.coalesce k (Some (JStr "(no apiKey in response)"));
            accessToken := Js.coalesce t (Some (JStr "(no accessToken in response)")) |})
    (fun message => throw ("getPSTokenWithApiKey failed: " +:+ message)).

(** ** [tools.ts]: the integration call *)

Definition psPost_request (url : string) (args : json) (apiKey accessToken : string)
    (timeoutMs : Z) : http_request :=
  {| rq_method := "POST";
     rq_url := url;
     rq_headers := [("apikey", apiKey);
                    ("Authorization", "Bearer " +:+ accessToken);
                    ("Content-Type", "application/json")];
     rq_body := TextBody (Js.stringify args);
     rq_deadline := Some timeoutMs |}.

(** The list the guard of [psPost] selects out of the decoded body: the
    array under [root.EmployeeMaster.EmployeeMasterData] when every step of
    the conjunction is truthy, the empty list (after a warning) otherwise. *)
Definition employeeList (toolResult : json) : list json :=
  let root := Js.get (Some toolResult) "root" in
  let master := Js.get root "EmployeeMaster" in
  let data := Js.get master "EmployeeMasterData" in
  if Js.truthy (Some toolResult) && Js.truthy root && Js.truthy master && Js.isArray data
  then match data with Some (JArr l) => l | _ => [] end
  else [].

(** The prefix of the string [psPost] returns from its [catch]. *)
Definition psPost_error : string := "❌ Error fetching tokens – ".

Definition psPost (w : world) (url : string) (args : json)
    (apiKey accessToken : string) (timeoutMs : Z) : M string :=
  try_catch
    (res ← fetch w (psPost_request url args apiKey accessToken timeoutMs);
     _ ← (if negb (res_ok res)
          then throw ("API error " +:+ pretty (res_status res) +:+ ": " +:+ text_or_empty res)
          else ret tt);
     toolResult ← await_json res;
     let top5 := Js.slice0 5 (employeeList toolResult) in
     ret (Js.stringify (JArr top5)))
    (fun message => ret (psPost_error +:+ message)).

(** A returned string reports a failure when it carries that prefix; a
    serialised list never does, it starts with a bracket. *)
Definition is_failure (toolResult : string) : bool :=
  startsWith toolResult psPost_error.

(** ** [main.ts]: helpers shared by every revision of the file *)

Definition system_prompt : chat_message :=
  SystemMessage "You are a helpful HR assistant.".

Definition no_answer : string := "(no answer)".

(** [x.choices[0]], whose [message] is read next: it throws on an empty
    list of choices. *)
Definition first_choice (choices : completion) : M (option assistant_message) :=
  match choices with
  | [] => throw "Cannot read properties of undefined (reading 'message')"
  | message :: _ => ret message
  end.

(** A read of property [k] of a message asserted present with [!]. *)
Definition asserted (message : option assistant_message) (k : string)
  : M assistant_message :=
  match message with
  | None => throw ("Cannot read properties of undefined (reading '" +:+ k +:+ "')")
  | Some m => ret m
  end.

Definition runChatLLM_request (prompt : string) : chat_request :=
  {| cr_model := "gpt-4o-mini";
     cr_tool_choice := None;
     cr_tools := [];
     cr_messages := [system_prompt; UserMessage prompt] |}.

Definition runChatLLM (w : world) (prompt : string) : M string :=
  completion ← create w (runChatLLM_request prompt);
  message ← first_choice completion;
  ret (default no_answer (message ≫= msg_content)).

Definition send (t : transport) (frame : list (string * json)) : M unit :=
  emit (Send t frame).

Definition respond (status : Z) (text : string) : M unit :=
  emit (Respond status text).

(** [{ role: "assistant", content, done }]. *)
Definition assistant_frame (content : string) (done : bool) : list (string * json) :=
  [("role", JStr "assistant"); ("content", JStr content); ("done", JBool done)].

(** A frame is terminal when its [done] member is [true]. *)
Definition is_done (frame : list (string * json)) : bool :=
  match Js.field frame "done" with
  | Some (JBool true) => true
  | _ => false
  end.

(** ** [main.ts], revision 1.1.0: the HTTP layer *)

Module Http.

(** [GET /sse]: [t] is the transport made for this response.  The handler
    answers 400 without an id and binds the id to [t] otherwise. *)
Definition get_sse (streams : gmap string transport) (query_id : jsval)
    (t : transport) : gmap string transport * M unit :=
  let id := Js.String (Js.or query_id (Some (JStr EmptyString))) in
  if negb (nonempty id) then (streams, respond 400 "session id required")
  else (<[id := t]> streams,
        _ ← emit (SetHeader "Cache-Control" "no-cache"); emit (Connect t)).

(** The listener [get_sse] leaves on the response's [close] event. *)
Definition on_close (streams : gmap string transport) (id : string)
  : gmap string transport :=
  delete id streams.

(** The id a [POST /messages] is addressed to. *)
Definition session_id (req : post_request) : string :=
  Js.String
    (Js.or (Js.or (Js.or (Js.or (query_sessionId req) (query_id req))
                         (Js.field (body req) "sessionId"))
                  (Js.field (body req) "id"))
           (Some (JStr EmptyString))).

(** The three callbacks handed to [handlePostMessage]: each one sets [saw]
    and writes one frame. *)
Definition on_callback (t : transport) (c : callback) : M unit :=
  match c with
  | onAssistantToken token last => send t (assistant_frame token last)
  | onAssistantMessage msg => send t (Js.spread_set msg "done" (JBool true))
  | onToolResult msg => send t (Js.spread_set msg "done" (JBool true))
  end.

(** The callbacks fired during one [handlePostMessage], threading [saw]. *)
Fixpoint fire (t : transport) (cs : list callback) (saw : bool) : M bool :=
  match cs with
  | [] => ret saw
  | c :: rest => _ ← on_callback t c; fire t rest true
  end.

(** [await t.handlePostMessage(req, res, req.body, callbacks)]; the value
    is [saw] as the callbacks left it. *)
Definition handlePostMessage (w : world) (t : transport) (req : post_request)
  : M bool :=
  _ ← emit (HandlePostMessage t req);
  saw ← fire t (mcp_callbacks w t req) false;
  _ ← (([], mcp_settles w t req) : M unit);
  ret saw.

(** [POST /messages]. *)
Definition post_messages (w : world) (streams : gmap string transport)
    (req : post_request) : M unit :=
  let id := session_id req in
  match streams !! id with
  | None => respond 202 EmptyString
  | Some t =>
      saw ← handlePostMessage w t req;
      let content := Js.field (body req) "content" in
      if negb saw
         && nonempty (trim (Js.String (Js.or content (Some (JStr EmptyString)))))
      then
        reply ← runChatLLM w (Js.String content);
        send t (assistant_frame reply true)
      else ret tt
  end.

End Http.

(** ** [main.ts], revisions 1.0.0: dispatch in code *)

(** [const { k } = v], which throws when [v] is [null]. *)
Definition destructure (v : json) (k : string) : M jsval :=
  match v with
  | JNull => throw ("Cannot destructure property '" +:+ k +:+ "' of 'null' as it is null.")
  | _ => ret (Js.get (Some v) k)
  end.

Definition parse (w : world) (text : string) : M json := ([], JSON_parse w text).

(** Entering the weather handler. *)
Definition weather (w : world) (city : jsval) : M jsval :=
  _ ← emit (Invoke "getWeather" [city]);
  s ← (([], fetchWeather w city) : M string);
  ret (Some (JStr s)).

(** The first request: the model may answer or pick one of [tools]. *)
Definition first_request (tools : list string) (prompt : string) : chat_request :=
  {| cr_model := "gpt-4o-mini";
     cr_tool_choice := Some "auto";
     cr_tools := tools;
     cr_messages := [system_prompt; UserMessage prompt] |}.

(** The second request: the tool's result goes back to the model. *)
Definition second_request (prompt : string) (msg : assistant_message)
    (name : string) (call : tool_call) (toolResult : jsval) : chat_request :=
  {| cr_model := "gpt-4o-mini";
     cr_tool_choice := None;
     cr_tools := [];
     cr_messages := [system_prompt; UserMessage prompt; AssistantMessage msg;
                     ToolMessage name (call_id call) toolResult] |}.

(** [second.choices[0].message!.content ?? "(no answer)"]. *)
Definition final_text (w : world) (cr : chat_request) : M string :=
  second ← create w cr;
  message ← first_choice second;
  m ← asserted message "content";
  ret (default no_answer (msg_content m)).

(** [msg.tool_calls && msg.tool_calls.length], then [msg.tool_calls[0]]. *)
Definition requested_call (msg : assistant_message) : option tool_call :=
  match msg_tool_calls msg with
  | Some (call :: _) => Some call
  | _ => None
  end.

(** The revision named "Thursday Demo": one tool, [getWeather]. *)
Module ThursdayDemo.

Definition tools : list string := ["getWeather"].

Definition runWithTools (w : world) (prompt : string) : M string :=
  first ← create w (first_request tools prompt);
  message ← first_choice first;
  msg ← asserted message "tool_calls";
  match requested_call msg with
  | Some call =>
      if String.eqb (call_name call) "getWeather" then
        args ← parse w (call_arguments call);
        city ← destructure args "city";
        toolResult ← weather w city;
        final_text w (second_request prompt msg "getWeather" call toolResult)
      else ret (default no_answer (msg_content msg))
  | None => ret (default no_answer (msg_content msg))
  end.

End ThursdayDemo.

(** The revision named "AI Employee Agent Demo" 1.0.0: [getWeather] and
    [getPSToken], with its own copy of [fetchPSToken]. *)
Module EmployeeAgentDemo.

Definition tools : list string := ["getWeather"; "getPSToken"].

Definition fetchPSToken : world -> jsval -> jsval -> Z -> M jsval :=
  fetchPSToken_with "No access_token field in response".

(** Entering the token handler, under the [try] that turns its error into
    the tool's result. *)
Definition token (w : world) (client_id client_secret : jsval) : M jsval :=
  _ ← emit (Invoke "getPSToken" [client_id; client_secret]);
  try_catch
    (fetchPSToken w client_id client_secret default_timeoutMs)
    (fun message => ret (Some (JStr ("❌  Error fetching token – " +:+ message)))).

Definition runWithTools (w : world) (prompt : string) : M string :=
  first ← create w (first_request tools prompt);
  message ← first_choice first;
  msg ← asserted message "tool_calls";
  match requested_call msg with
  | Some call =>
      if String.eqb (call_name call) "getWeather" then
        args ← parse w (call_arguments call);
        city ← destructure args "city";
        toolResult ← weather w city;
        final_text w (second_request prompt msg "getWeather" call toolResult)
      else if String.eqb (call_name call) "getPSToken" then
        args ← parse w (call_arguments call);
        client_id ← destructure args "client_id";
        client_secret ← destructure args "client_secret";
        toolResult ← token w client_id client_secret;
        final_text w (second_request prompt msg "getPSToken" call toolResult)
      else ret (default no_answer (msg_content msg))
  | None => ret (default no_answer (msg_content msg))
  end.

End EmployeeAgentDemo.

(** ** The interface document's wording, for comparison with the code *)

(** The value found by walking [path] down nested objects. *)
Fixpoint at_path (v : json) (path : list string) : option json :=
  match path with
  | [] => Some v
  | k :: rest =>
      match v with
      | JObj fields =>
          match Js.field fields k with
          | Some v' => at_path v' rest
          | None => None
          end
      | _ => None
      end
  end.

(** The known path of the nested list in an HR response. *)
Definition known_path : list string :=
  ["root"; "EmployeeMaster"; "EmployeeMasterData"].

(** A callback closes the turn when it writes a frame with [done: true]:
    a last token, an assistant message or a tool result. *)
Definition terminal (c : callback) : bool :=
  match c with
  | onAssistantToken _ last => last
  | onAssistantMessage _ | onToolResult _ => true
  end.

(** The transport fired nothing, or fired exactly one terminal callback
    and fired it last. *)
Fixpoint one_terminal_last (cs : list callback) : bool :=
  match cs with
  | [] => true
  | c :: rest =>
      match rest with
      | [] => terminal c
      | _ => negb (terminal c) && one_terminal_last rest
      end
  end.

(** The frame a callback writes. *)
Definition callback_frame (c : callback) : list (string * json) :=
  match c with
  | onAssistantToken token last => assistant_frame token last
  | onAssistantMessage msg | onToolResult msg => Js.spread_set msg "done" (JBool true)
  end.

(** The number of frames with [done: true] among [fs]. *)
Definition done_count (fs : list (transport * list (string * json))) : nat :=
  length (List.filter (fun f => is_done (snd f)) fs).

(** The [content] of a posted message as the handler reads it:
    [String(req.body.content || '')]. *)
Definition content_text (req : post_request) : string :=
  Js.String (Js.or (Js.field (body req) "content") (Some (JStr EmptyString))).

(** ** Concrete worlds *)

Module Scenario.

(** A peer that answers every request with [res], a provider that answers
    every request with [choices], a transport that fires [cs] and returns,
    and tool calls whose arguments parse to the empty object. *)
Definition make (res : outcome http_response) (choices : outcome completion)
    (cs : list callback) : world :=
  {| http := fun _ => res;
     openai := fun _ => choices;
     JSON_parse := fun _ => Return (JObj []);
     env := fun _ => None;
     mcp_callbacks := fun _ _ => cs;
     mcp_settles := fun _ _ => Return tt;
     fetchWeather := fun _ => Return "Weather in Delhi: 31 °C, Haze" |}.

Definition replying (status : Z) (v : json) : outcome http_response :=
  Return {| res_status := status;
            res_text := Return (Js.stringify v);
            res_json := Return v |}.

Definition employee (n : Z) : json :=
  JObj [("EmployeeCode", JNum n); ("Name", JStr "A")].

Definition hr_body (l : list json) : json :=
  JObj [("root", JObj [("EmployeeMaster", JObj [("EmployeeMasterData", JArr l)])])].

Definition six : list json := map employee [1; 2; 3; 4; 5; 6]%Z.

Definition says (text : string) : outcome completion :=
  Return [Some {| msg_content := Some text; msg_tool_calls := None |}].

(** A reply that asks for a tool the code does not know, with no text. *)
Definition asks_for (name : string) : assistant_message :=
  {| msg_content := None;
     msg_tool_calls := Some [{| call_id := "call_1"; call_name := name;
                                call_arguments := "{}" |}] |}.

Definition hr_six : world := make (replying 200 (hr_body six)) (says "Hello") [].
Definition hr_no_list : world := make (replying 200 (JObj [("root", JObj [])])) (says "Hello") [].
Definition hr_unauthorized : world := make (replying 401 (JStr "denied")) (says "Hello") [].
Definition empty_reply : world := make (replying 200 (JObj [])) (says "Hello") [].
Definition silent : world := make (Throw timed_out) (says "Hello") [].
Definition unknown_tool : world :=
  make (Throw timed_out) (Return [Some (asks_for "getSalary")]) [].

(** A transport that fires an assistant message and then a tool result. *)
Definition message_then_tool : world :=
  make (Throw timed_out) (says "Hello")
    [onAssistantMessage [("role", JStr "assistant"); ("content", JStr "Hi")];
     onToolResult [("role", JStr "tool"); ("name", JStr "getWeather")]].

(** A transport that streams two tokens, the second marked last. *)
Definition two_tokens : world :=
  make (Throw timed_out) (says "Hello")
    [onAssistantToken "Hel" false; onAssistantToken "lo" true].

Definition t0 : transport := {| connection := 0 |}.
Definition t1 : transport := {| connection := 1 |}.

(** One open session, ["abc"], bound to [t0]. *)
Definition open_abc : gmap string transport := {[ "abc" := t0 ]}.

Definition post (id content : string) : post_request :=
  {| query_sessionId := Some (JStr id);
     query_id := None;
     body := [("content", JStr content)] |}.

Definition hris : playground_args :=
  {| organizationId := 3; sysModuleName := "HRIS";
     routePath := "/api/integration/Outbound/PeopleStrongHRServices_HRIS_testAgent" |}.

End Scenario.

(** ** [tools.ts]: the weather lookup *)

Module Uri.

Definition upper_hex_digit (n : nat) : ascii :=
  Ascii.ascii_of_nat (if (n <? 10)%nat then 48 + n else 55 + n).

(** The characters [encodeURIComponent] leaves alone: letters, digits and
    [- _ . ! ~ * ' ( )]. *)
Definition unreserved (c : ascii) : bool :=
  let n := Ascii.nat_of_ascii c in
  (((65 <=? n) && (n <=? 90)) || ((97 <=? n) && (n <=? 122))
   || ((48 <=? n) && (n <=? 57))
   || (n =? 45) || (n =? 95) || (n =? 46) || (n =? 33) || (n =? 126)
   || (n =? 42) || (n =? 39) || (n =? 40) || (n =? 41))%nat.

(** [%XX] for one byte of the UTF-8 encoding. *)
Definition percent (c : ascii) : string :=
  let n := Ascii.nat_of_ascii c in
  String "%" (String (upper_hex_digit (n / 16))
                (String (upper_hex_digit (n mod 16)) EmptyString)).

Fixpoint encodeURIComponent (s : string) : string :=
  match s with
  | EmptyString => EmptyString
  | String c rest =>
      (if unreserved c then String c EmptyString else percent c)
      +:+ encodeURIComponent rest
  end.

End Uri.

(** [fetch(url, { dispatcher: insecure })]: a GET without headers, body or
    deadline. *)
Definition getWeather_request (city : string) : http_request :=
  {| rq_method := "GET";
     rq_url := "https://wttr.in/" +:+ Uri.encodeURIComponent city +:+ "?format=j1";
     rq_headers := [];
     rq_body := NoBody;
     rq_deadline := None |}.

(** The engine's [TypeError] for a value that cannot be iterated; its
    exact text is the engine's and is not reproduced. *)
Definition not_iterable : string := "is not iterable".

(** [const [x] = v]: the first element of an array, the first character of a
    string (of which only its being a string is ever used), nothing when either
    is empty; anything else cannot be iterated. *)
Definition first_of (v : jsval) : M jsval :=
  match v with
  | Some (JArr items) => ret (head items)
  | Some (JStr EmptyString) => ret None
  | Some (JStr (String c _)) => ret (Some (JStr (String c EmptyString)))
  | _ => throw not_iterable
  end.

(** [v[0]]. *)
Definition index0 (v : jsval) : M jsval :=
  match v with
  | None => throw "Cannot read properties of undefined (reading '0')"
  | Some JNull => throw "Cannot read properties of null (reading '0')"
  | Some (JArr items) => ret (head items)
  | Some (JStr EmptyString) => ret None
  | Some (JStr (String c _)) => ret (Some (JStr (String c EmptyString)))
  | Some (JObj fields) => ret (Js.field fields "0")
  | Some (JBool _) | Some (JNum _) => ret None
  end.

Definition getWeather (w : world) (city : string) : M string :=
  res ← fetch w (getWeather_request city);
  _ ← (if negb (res_ok res)
       then throw ("wttr responded " +:+ pretty (res_status res))
       else ret tt);
  json ← await_json res;
  current_condition ← destructure json "current_condition";
  cur ← first_of current_condition;
  temp_C ← member cur "temp_C";
  weatherDesc ← member cur "weatherDesc";
  desc ← index0 weatherDesc;
  value ← member desc "value";
  ret ("Weather in " +:+ city +:+ ": " +:+ Js.String temp_C +:+ " °C, "
       +:+ Js.String value).

(** ** [tools.ts]: the HR lookups *)

(** [v?.k]. *)
Definition optional_get (v : jsval) (k : string) : jsval :=
  if Js.nullish v then None else Js.get v k.

(** [a ?? b] where [b] is a JSON value. *)
Definition coalesce_json (a : jsval) (b : json) : json :=
  match a with
  | None | Some JNull => b
  | Some v => v
  end.

(** What tells one lookup from another: the name of the function (used in
    its error), the module and the integration master. *)
Record integration : Type := {
  fn_name : string;
  module_name : string;
  master_name : string
}.

Definition integration_route (i : integration) : string :=
  "/api/integration/Outbound/PeopleStrongHRServices_" +:+ module_name i
  +:+ "_" +:+ master_name i.

Definition integration_url (i : integration) : string :=
  "https://uat-api.peoplestrong.com" +:+ integration_route i.

Definition integration_args (i : integration) : playground_args :=
  {| organizationId := 3;
     sysModuleName := module_name i;
     routePath := integration_route i |}.

(** [{ integrationMasterName, dynamicFilter: args.dynamicFilter ?? [] }]. *)
Definition filter_payload (i : integration) (args : list (string * json))
  : list (string * json) :=
  [("integrationMasterName", JStr (master_name i));
   ("dynamicFilter", coalesce_json (Js.field args "dynamicFilter") (JArr []))].

(** [if (args.k?.value) payload.k = args.k]. *)
Definition with_date (k : string) (args payload : list (string * json))
  : list (string * json) :=
  match Js.field args k with
  | Some d => if Js.truthy (optional_get (Some d) "value")
              then Js.spread_set payload k d
              else payload
  | None => payload
  end.

(** The body every lookup shares: exchange the credential, post the
    payload with it, and rethrow anything thrown under the function's name. *)
Definition hr_lookup (w : world) (i : integration) (payload : list (string * json))
  : M string :=
  try_catch
    (cred ← getPSTokenWithApiKey w (integration_args i) default_timeoutMs;
     psPost w (integration_url i) (JObj payload)
       (Js.String (apiKey cred)) (Js.String (accessToken cred)) default_timeoutMs)
    (fun message => throw (fn_name i +:+ " failed: " +:+ message)).

Definition hris (fn master : string) : integration :=
  {| fn_name := fn; module_name := "HRIS"; master_name := master |}.

Definition getEmployeeDetails (w : world) (args : list (string * json)) : M string :=
  let i := hris "getEmployeeDetails" "testAgent" in
  hr_lookup w i (with_date "endDate" args (with_date "startDate" args (filter_payload i args))).











Definition getCandidateDetails (w : world) (args : list (string * json)) : M string :=
  let i := {| fn_name := "getCandidateDetails"; module_name := "Recruit";
              master_name := "candidateDetailsTool" |} in
  hr_lookup w i (filter_payload i args).

(** ** [main.ts], revision 1.1.0: the bearer-token middleware *)

Module Auth.

Definition is_space (c : ascii) : bool := (Ascii.nat_of_ascii c =? 32)%nat.

(** [s.split(' ')]: the pieces between single spaces, empty pieces kept. *)
Fixpoint split_space (s : string) : list string :=
  match s with
  | EmptyString => [EmptyString]
  | String c rest =>
      if is_space c then EmptyString :: split_space rest
      else match split_space rest with
           | piece :: pieces => String c piece :: pieces
           | [] => [String c EmptyString]
           end
  end.

(** [authHeader.split(' ')[1]]. *)
Definition token_of (authHeader : string) : option string :=
  split_space authHeader !! 1.

(** An argument [jsonwebtoken] hands to a key function: the header of the
    token, or the function that is to be called with the key. *)
Inductive argument : Type :=
| Header (header : json)
| KeyCallback (k : option string -> M (option json)).

(** The library as the middleware meets it: [decode] is its reading of the
    token before any key is needed (it fails on a token that is missing, is
    not made of three parts or does not decode), [check] its verification of
    signature, audience and issuer once it has the key. *)
Record library : Type := {
  decode : option string -> outcome json;
  check : option string -> option string -> outcome json
}.

(** [jwt.verify(token, getKey, options, callback)] with a function for a
    key.  A token that does not decode is reported to [callback] and no key is
    asked for; otherwise [getKey] is called with two arguments, the header and
    the function that takes the key, and what the check gives goes to
    [callback]. *)
Definition verify (lib : library) (token : option string)
    (getKey : list argument -> M (option json))
    (callback : outcome json -> M (option json)) : M (option json) :=
  match decode lib token with
  | Throw message => callback (Throw message)
  | Return header =>
      getKey [Header header;
              KeyCallback (fun secret => callback (check lib token secret))]
  end.

(** The key function of the source, [(_header, _payload, callback) =>
    callback(null, process.env.JWT_SECRET!)]: it calls its third parameter.  A
    parameter that gets no argument is [undefined], and calling what is not a
    function throws a [TypeError]. *)
Definition jwtKeyCallback (w : world) (arguments : list argument) : M (option json) :=
  match arguments !! 2%nat with
  | Some (KeyCallback callback) => callback (env w "JWT_SECRET")
  | _ => throw "callback is not a function"
  end.

(** The middleware.  The value is the payload put in [req.user] when [next]
    is called, and nothing when the middleware has answered itself. *)
Definition authenticate (w : world) (lib : library) (authorization : option string)
  : M (option json) :=
  match authorization with
  | None => _ ← respond 401 "Missing Authorization header"; ret None
  | Some authHeader =>
      if negb (nonempty authHeader)
      then _ ← respond 401 "Missing Authorization header"; ret None
      else verify lib (token_of authHeader) (jwtKeyCallback w)
             (fun verified =>
                match verified with
                | Throw _ => _ ← respond 403 "Invalid token"; ret None
                | Return decoded => ret (Some decoded)
                end)
  end.

End Auth.

(** ** [main.ts], revision 1.1.0: the life of the session map *)

Module Registry.

(** What changes [streams]: a [GET /sse] served with transport [t], and the
    [close] event of a response that had registered [id]. *)
Inductive event : Type :=
| Subscribe (query_id : jsval) (t : transport)
| Disconnect (id : string).

Definition step (streams : gmap string transport) (e : event)
  : gmap string transport :=
  match e with
  | Subscribe query_id t => (Http.get_sse streams query_id t).1
  | Disconnect id => Http.on_close streams id
  end.

(** The map after the events [es], from the empty map of a fresh process. *)
Definition after (es : list event) : gmap string transport :=
  foldl step ∅ es.

(** The id a [GET /sse] registers under. *)
Definition subscribed_id (query_id : jsval) : string :=
  Js.String (Js.or query_id (Some (JStr EmptyString))).

End Registry.

(** ** [main.ts], revision "AI Employee Agent Demo" 1.0.0: the HTTP layer *)

Module Wire.

(** This revision also closes transports: its traces interleave the effects
    of the other revisions with [close]. *)
Inductive action : Type :=
| Do (e : effect)
| Close (t : transport).

Definition W (A : Type) : Type := (list action * outcome A)%type.

Definition lift {A : Type} (m : M A) : W A := (map Do (fst m), snd m).

Definition bind {A B : Type} (m : W A) (k : A -> W B) : W B :=
  match m with
  | (tr, Return a) => let (tr', r) := k a in (tr ++ tr', r)
  | (tr, Throw e) => (tr, Throw e)
  end.

(** [writeFrame(t, data, { last })]: one frame with [done: last], and the
    transport closed after a last frame. *)
Definition writeFrame (t : transport) (data : list (string * json)) (last : bool)
  : W unit :=
  (Do (Send t (Js.spread_set data "done" (JBool last)))
     :: (if last then [Close t] else []),
   Return tt).

(** [a ?? b]. *)
Definition session_id (req : post_request) : string :=
  Js.String
    (Js.coalesce
       (Js.coalesce
          (Js.coalesce (Js.coalesce (query_sessionId req) (query_id req))
             (Js.field (body req) "sessionId"))
          (Js.field (body req) "id"))
       (Some (JStr EmptyString))).

Definition on_callback (t : transport) (c : callback) : W unit :=
  match c with
  | onAssistantToken token last =>
      writeFrame t [("role", JStr "assistant"); ("content", JStr token)] last
  | onAssistantMessage message => writeFrame t message true
  | onToolResult message => writeFrame t message true
  end.

Fixpoint fire (t : transport) (cs : list callback) (sawResponse : bool) : W bool :=
  match cs with
  | [] => ([], Return sawResponse)
  | c :: rest => bind (on_callback t c) (fun _ => fire t rest true)
  end.

Definition handlePostMessage (w : world) (t : transport) (req : post_request)
  : W bool :=
  bind (lift (emit (HandlePostMessage t req))) (fun _ =>
  bind (fire t (mcp_callbacks w t req) false) (fun sawResponse =>
  bind (lift (([], mcp_settles w t req) : M unit)) (fun _ =>
  ([], Return sawResponse)))).

(** [POST /messages]: the fallback goes through [runWithTools]. *)
Definition post_messages (w : world) (streams : gmap string transport)
    (req : post_request) : W unit :=
  let id := session_id req in
  let msg := Js.String (Js.or (Js.field (body req) "content") (Some (JStr EmptyString))) in
  match streams !! id with
  | None => lift (respond 202 EmptyString)
  | Some t =>
      bind (handlePostMessage w t req) (fun sawResponse =>
      if negb sawResponse && nonempty (trim msg)
      then bind (lift (EmployeeAgentDemo.runWithTools w msg)) (fun answer =>
           writeFrame t [("role", JStr "assistant"); ("content", JStr answer)] true)
      else ([], Return tt))
  end.

(** Frames written, and transports closed, in order. *)
Definition sent (tr : list action) : list (transport * list (string * json)) :=
  omap (fun a => match a with Do (Send t f) => Some (t, f) | _ => None end) tr.

(** Every [close] comes right after a frame with [done: true] on the same
    transport, and every such frame is followed by one. *)
Fixpoint closes_after_done (tr : list action) : bool :=
  match tr with
  | [] => true
  | Do (Send t f) :: rest =>
      if is_done f then
        match rest with
        | Close t' :: rest' => Nat.eqb (connection t) (connection t') && closes_after_done rest'
        | _ => false
        end
      else closes_after_done rest
  | Close _ :: _ => false
  | Do _ :: rest => closes_after_done rest
  end.

End Wire.

(** ** Vocabulary of the further properties *)

(** The rules of [normalizeFieldCode], in the order they are tried: the
    word the key must start with, and the name the code then gets. *)
Definition rules : list (string * string) :=
  [ ("offer", "Offered Date"); ("birth", "Birth Date"); ("dob", "Birth Date");
    ("join", "Date Of Joining"); ("confirmation", "Confirmation Date");
    ("relieving", "Date Of Relieving"); ("retirement", "Retirement Date");
    ("l1", "L1ManagerName"); ("l2", "L2ManagerName") ].

Definition upper_char (c : ascii) : ascii :=
  let n := Ascii.nat_of_ascii c in
  if ((97 <=? n) && (n <=? 122))%nat then Ascii.ascii_of_nat (n - 32) else c.

(** One way of writing [word]: before each character the white space
    [gap], and the character in upper case where [upper] says so; characters
    beyond [how] are written as they are. *)
Fixpoint spelling (word : string) (how : list (list string * bool)) : string :=
  match word with
  | EmptyString => EmptyString
  | String c rest =>
      match how with
      | [] => String c (spelling rest [])
      | (gap, upper) :: how' =>
          fold_right String.append EmptyString gap
          +:+ String (if upper then upper_char c else c) (spelling rest how')
      end
  end.

(** The characters of the rules' words: lower-case letters and digits. *)
Definition plain_char (c : ascii) : bool :=
  let n := Ascii.nat_of_ascii c in
  (((97 <=? n) && (n <=? 122)) || ((48 <=? n) && (n <=? 57)))%nat.

(** Every gap of [how] is made of white-space characters. *)
Definition well_spaced (how : list (list string * bool)) : bool :=
  forallb (fun g => forallb (fun sp => existsb (String.eqb sp) white_space) (fst g)) how.

(** The characters that can occur in the output of [encodeURIComponent]. *)
Definition uri_safe (c : ascii) : bool :=
  Uri.unreserved c || (Ascii.nat_of_ascii c =? 37)%nat.

Fixpoint all_chars (p : ascii -> bool) (s : string) : bool :=
  match s with
  | EmptyString => true
  | String c rest => p c && all_chars p rest
  end.

Definition no_space (s : string) : bool :=
  all_chars (fun c => negb (Auth.is_space c)) s.

(** The sources of a posted message's session id, in the order the
    handlers consult them. *)
Definition id_sources (req : post_request) : list jsval :=
  [query_sessionId req; query_id req;
   Js.field (body req) "sessionId"; Js.field (body req) "id"].

Module Examples.



(** A peer that grants a credential to the playground request and answers
    every other request with six employee records. *)
Definition granted : json :=
  JObj [("apiKey", JStr "key-1"); ("accessToken", JStr "token-1")].

Definition hr_peer (rq : http_request) : outcome http_response :=
  if String.eqb (rq_url rq) playground_endpoint
  then Scenario.replying 200 granted
  else Scenario.replying 200 (Scenario.hr_body Scenario.six).

Definition hr : world :=
  {| http := hr_peer;
     openai := fun _ => Scenario.says "Hello";
     JSON_parse := fun _ => Return (JObj []);
     env := fun _ => None;
     mcp_callbacks := fun _ _ => [];
     mcp_settles := fun _ _ => Return tt;
     fetchWeather := fun _ => Throw "wttr responded 503" |}.







(** A token library that decodes the one token ["a.b.c"] and finds it
    signed with the secret ["s3cret"]. *)
Definition jwt : Auth.library :=
  {| Auth.decode := fun token =>
       match token with
       | Some "a.b.c" => Return (JObj [("alg", JStr "HS256")])
       | Some _ => Throw "jwt malformed"
       | None => Throw "jwt must be provided"
       end;
     Auth.check := fun _ secret =>
       match secret with
       | Some "s3cret" => Return (JObj [("sub", JStr "u1")])
       | _ => Throw "invalid signature"
       end |}.

(** An environment that holds that secret. *)
Definition with_secret : world :=
  {| http := fun _ => Throw timed_out;
     openai := fun _ => Scenario.says "Hello";
     JSON_parse := fun _ => Return (JObj []);
     env := fun name => if String.eqb name "JWT_SECRET" then Some "s3cret" else None;
     mcp_callbacks := fun _ _ => [];
     mcp_settles := fun _ _ => Return tt;
     fetchWeather := fun _ => Throw "wttr responded 503" |}.

End Examples.

(** * Properties *)

(** ** [normalizeFieldCode] *)

Example normalizeFieldCode_dob : normalizeFieldCode "D O B" = "Birth Date".
Proof. reflexivity. Qed.

Example normalizeFieldCode_joining : normalizeFieldCode "Joining date" = "Date Of Joining".
Proof. reflexivity. Qed.

Example normalizeFieldCode_other : normalizeFieldCode "Employee Code" = "Employee Code".
Proof. reflexivity. Qed.

Example trim_both_ends : trim "  a b  " = "a b".
Proof. reflexivity. Qed.

(** U+00A0 and U+3000 are white space like the ASCII space. *)
Example normalizeFieldCode_no_break_space :
  normalizeFieldCode ("D" +:+ bytes [194; 160] +:+ "O" +:+ bytes [227; 128; 128] +:+ "B")
  = "Birth Date".
Proof. reflexivity. Qed.

Example trim_no_break_space :
  trim (bytes [194; 160] +:+ " a" +:+ bytes [194; 160] +:+ "b " +:+ bytes [239; 187; 191])
  = "a" +:+ bytes [194; 160] +:+ "b".
Proof. reflexivity. Qed.

Example trim_blank : trim (bytes [194; 160; 226; 128; 168; 9]) = EmptyString.
Proof. reflexivity. Qed.

(** A byte of a longer character is not taken for white space. *)
Example trim_keeps_other_characters :
  trim (bytes [195; 160]) = bytes [195; 160].
Proof. reflexivity. Qed.

(** The result is the argument itself or one of the canonical names. *)
Lemma normalizeFieldCode_cases (s : string) :
  normalizeFieldCode s = s \/ In (normalizeFieldCode s) canonical_field_names.
Proof.
  unfold normalizeFieldCode, canonical_field_names.
  repeat (match goal with
          | |- context [if ?b then _ else _] => destruct b
          end; [right; simpl; tauto |]).
  now left.
Qed.

(** Each canonical name is a fixed point: it re-matches its own rule, or
    (the two [Date Of ...] names) no rule at all. *)
Lemma normalizeFieldCode_canonical (c : string) :
  In c canonical_field_names -> normalizeFieldCode c = c.
Proof.
  unfold canonical_field_names; simpl.
  intros H; repeat (destruct H as [<- | H]; [reflexivity |]); contradiction.
Qed.

(** C10. [normalizeFieldCode] is idempotent: applying it to its own result
    changes nothing, for every input string. *)
Theorem normalizeFieldCode_idempotent (s : string) :
  normalizeFieldCode (normalizeFieldCode s) = normalizeFieldCode s.
Proof.
  destruct (normalizeFieldCode_cases s) as [Hid | Hcanon].
  - now rewrite Hid.
  - now apply normalizeFieldCode_canonical.
Qed.

(** ** [psPost] *)

Lemma prefix_append (p s : string) : String.prefix p (p +:+ s) = true.
Proof.
  induction p as [| c p IH]; [now destruct s |].
  simpl.
  destruct (Ascii.ascii_dec c c) as [_ | Hne]; [exact IH | now destruct Hne].
Qed.

(** A failure string is recognised as such. *)
Lemma is_failure_error (message : string) :
  is_failure (psPost_error +:+ message) = true.
Proof. apply prefix_append. Qed.

(** The guard of [psPost] selects the array at the known path, and nothing
    when there is no array there. *)
Lemma employeeList_at_path (v : json) :
  employeeList v =
    match at_path v known_path with
    | Some (JArr l) => l
    | _ => []
    end.
Proof.
  unfold employeeList, known_path.
  destruct v as [|b|n|s|items|fields]; cbn;
    [ reflexivity | now destruct b | now destruct (n =? 0)%Z | now destruct s
    | reflexivity | ].
  destruct (Js.field fields "root") as [[|b|n|s|items|froot]|]; cbn;
    [ reflexivity | now destruct b | now destruct (n =? 0)%Z | now destruct s
    | reflexivity | | reflexivity ].
  destruct (Js.field froot "EmployeeMaster") as [[|b|n|s|items|fmaster]|]; cbn;
    [ reflexivity | now destruct b | now destruct (n =? 0)%Z | now destruct s
    | reflexivity | | reflexivity ].
  now destruct (Js.field fmaster "EmployeeMasterData") as [[| | | | |]|].
Qed.

Section PsPost.

Variables (w : world) (url : string) (args : json) (apiKey accessToken : string).
Variable timeoutMs : Z.

Local Abbreviation request := (psPost_request url args apiKey accessToken timeoutMs).
Local Abbreviation returned := (result (psPost w url args apiKey accessToken timeoutMs)).

(** What [psPost] does once the peer has answered in the 2xx range with a
    decodable body. *)
Lemma psPost_decoded res v :
  http w request = Return res ->
  res_ok res = true ->
  res_json res = Return v ->
  returned = Return (Js.stringify (JArr (take 5 (employeeList v)))).
Proof.
  intros Hhttp Hok Hjson. unfold psPost. run_M.
  rewrite Hhttp, Hok, Hjson. reflexivity.
Qed.

(** C2. When the peer's (2xx) response body holds a list under
    [root.EmployeeMaster.EmployeeMasterData], [psPost] returns exactly the
    serialisation of the first [min 5 (length l)] entries of that list, in
    their order; a list of six or more entries is cut to exactly five. *)
Theorem psPost_returns_first_five res v l :
  http w request = Return res ->
  res_ok res = true ->
  res_json res = Return v ->
  at_path v known_path = Some (JArr l) ->
  returned = Return (Js.stringify (JArr (take (min 5 (length l)) l)))
  /\ (exists dropped, l = take (min 5 (length l)) l ++ dropped)
  /\ length (take (min 5 (length l)) l) = min 5 (length l)
  /\ (6 <= length l -> length (take (min 5 (length l)) l) = 5).
Proof.
  intros Hhttp Hok Hjson Hpath.
  assert (Htake : take (min 5 (length l)) l = take 5 l).
  { destruct (Nat.le_ge_cases 5 (length l)) as [Hle | Hge].
    - now rewrite Nat.min_l.
    - rewrite Nat.min_r by exact Hge. rewrite !take_ge; [reflexivity | lia | lia]. }
  rewrite Htake. repeat split.
  - rewrite (psPost_decoded _ _ Hhttp Hok Hjson).
    now rewrite employeeList_at_path, Hpath.
  - exists (drop 5 l). symmetry. apply take_drop.
  - rewrite length_take. lia.
  - intros Hsix. rewrite length_take. lia.
Qed.

(** C3, amended. [psPost] never throws: it always returns a string.  A
    rejected request (network failure, or the abort at the deadline), a
    status outside 2xx and an undecodable body each yield a failure string,
    [psPost_error] followed by the error's message; a decoded body without
    the nested list yields the serialised empty list instead. *)
Theorem psPost_failures :
  (exists toolResult, returned = Return toolResult)
  /\ (forall message,
        http w request = Throw message ->
        returned = Return (psPost_error +:+ message))
  /\ (forall res,
        http w request = Return res ->
        res_ok res = false ->
        returned = Return (psPost_error +:+ "API error " +:+ pretty (res_status res)
                           +:+ ": " +:+ text_or_empty res))
  /\ (forall res message,
        http w request = Return res ->
        res_ok res = true ->
        res_json res = Throw message ->
        returned = Return (psPost_error +:+ message))
  /\ (forall res v,
        http w request = Return res ->
        res_ok res = true ->
        res_json res = Return v ->
        (forall l, at_path v known_path <> Some (JArr l)) ->
        returned = Return "[]")
  /\ (forall message, is_failure (psPost_error +:+ message) = true).
Proof.
  repeat split.
  - unfold psPost. run_M.
    destruct (http w _) as [res | message]; cbn; [| eauto].
    destruct (res_ok res); cbn; [| eauto].
    destruct (res_json res); cbn; eauto.
  - intros message Hhttp. unfold psPost. run_M. now rewrite Hhttp.
  - intros res Hhttp Hok. unfold psPost. run_M. now rewrite Hhttp, Hok.
  - intros res message Hhttp Hok Hjson. unfold psPost. run_M.
    now rewrite Hhttp, Hok, Hjson.
  - intros res v Hhttp Hok Hjson Hnone.
    rewrite (psPost_decoded _ _ Hhttp Hok Hjson), employeeList_at_path.
    destruct (at_path v known_path) as [[| | | |l|]|]; try reflexivity.
    now destruct (Hnone l).
  - apply is_failure_error.
Qed.

End PsPost.

(** Witness of C2: a response of six employee records comes back as the
    first five. *)
Lemma psPost_returns_first_five_witness :
  result (psPost Scenario.hr_six "https://uat-api.peoplestrong.com/x" JNull "k" "t" 8000)
    = Return (Js.stringify (JArr (take (min 5 (length Scenario.six)) Scenario.six)))
  /\ (exists dropped,
        Scenario.six = take (min 5 (length Scenario.six)) Scenario.six ++ dropped)
  /\ length (take (min 5 (length Scenario.six)) Scenario.six) = min 5 (length Scenario.six)
  /\ (6 <= length Scenario.six ->
      length (take (min 5 (length Scenario.six)) Scenario.six) = 5).
Proof.
  apply (psPost_returns_first_five Scenario.hr_six _ _ _ _ _
           {| res_status := 200;
              res_text := Return (Js.stringify (Scenario.hr_body Scenario.six));
              res_json := Return (Scenario.hr_body Scenario.six) |}
           (Scenario.hr_body Scenario.six) Scenario.six);
    reflexivity.
Defined.

Example psPost_six_records :
  result (psPost Scenario.hr_six "https://uat-api.peoplestrong.com/x" JNull "k" "t" 8000)
  = Return (Js.stringify (JArr (map Scenario.employee [1; 2; 3; 4; 5]%Z))).
Proof. vm_compute. reflexivity. Qed.

(** Counterexample to C3 as stated: a 2xx response without the nested
    list makes [psPost] return the serialised empty list, which is not a
    failure string. *)
Lemma psPost_missing_field_is_not_failure :
  result (psPost Scenario.hr_no_list "https://uat-api.peoplestrong.com/x" JNull "k" "t" 8000)
    = Return "[]"
  /\ is_failure "[]" = false.
Proof. split; vm_compute; reflexivity. Qed.

(** Witness of C3: the deadline's abort comes back as a failure string,
    and so does a 401. *)
Lemma psPost_failures_witness :
  result (psPost Scenario.silent "https://uat-api.peoplestrong.com/x" JNull "k" "t" 8000)
    = Return (psPost_error +:+ timed_out)
  /\ result (psPost Scenario.hr_unauthorized "https://uat-api.peoplestrong.com/x" JNull "k" "t" 8000)
    = Return (psPost_error +:+ "API error 401: " +:+ Js.stringify (JStr "denied")).
Proof.
  pose proof (psPost_failures Scenario.silent
                "https://uat-api.peoplestrong.com/x" JNull "k" "t" 8000)
    as (_ & Hthrow & _).
  pose proof (psPost_failures Scenario.hr_unauthorized
                "https://uat-api.peoplestrong.com/x" JNull "k" "t" 8000)
    as (_ & _ & Hstatus & _).
  split.
  - apply Hthrow. reflexivity.
  - apply (Hstatus {| res_status := 401;
                      res_text := Return (Js.stringify (JStr "denied"));
                      res_json := Return (JStr "denied") |}); reflexivity.
Defined.

(** ** Credential exchange *)

(** Counterexample to C6 as stated: the API-key exchange, given a 2xx
    reply that lacks both members, does not fail; it returns a credential
    made of two placeholder strings. *)
Lemma getPSTokenWithApiKey_missing_fields_returns :
  result (getPSTokenWithApiKey Scenario.empty_reply Scenario.hris default_timeoutMs)
  = Return {| apiKey := Some (JStr "(no apiKey in response)");
              accessToken := Some (JStr "(no accessToken in response)") |}.
Proof. vm_compute. reflexivity. Qed.

(** C6, amended. A status outside 2xx fails either exchange with an error
    that carries the status and the body text.  The OAuth exchange also
    fails on a decoded body whose [access_token] is missing or falsy, with
    [No access_token in response] (or, for the body [null], with the type
    error of the read).  The API-key exchange does not fail on a decoded body
    that lacks [apiKey] or [accessToken]: it returns the credential with a
    placeholder in place of each missing member. *)
Theorem credential_exchange_failures w :
  (forall client_id client_secret timeoutMs res,
      http w (fetchPSToken_request client_id client_secret timeoutMs) = Return res ->
      res_ok res = false ->
      result (fetchPSToken w client_id client_secret timeoutMs)
      = Throw ("fetchPSToken failed: PeopleStrong responded "
               +:+ pretty (res_status res) +:+ ": " +:+ text_or_empty res))
  /\ (forall client_id client_secret timeoutMs res v,
        http w (fetchPSToken_request client_id client_secret timeoutMs) = Return res ->
        res_ok res = true ->
        res_json res = Return v ->
        Js.truthy (Js.get (Some v) "access_token") = false ->
        result (fetchPSToken w client_id client_secret timeoutMs)
        = Throw ("fetchPSToken failed: "
                 +:+ match v with
                     | JNull => "Cannot read properties of null (reading 'access_token')"
                     | _ => "No access_token in response"
                     end))
  /\ (forall args timeoutMs res,
        http w (getPSTokenWithApiKey_request w args timeoutMs) = Return res ->
        res_ok res = false ->
        result (getPSTokenWithApiKey w args timeoutMs)
        = Throw ("getPSTokenWithApiKey failed: HTTP "
                 +:+ pretty (res_status res) +:+ ": " +:+ text_or_empty res))
  /\ (forall args timeoutMs res v,
        http w (getPSTokenWithApiKey_request w args timeoutMs) = Return res ->
        res_ok res = true ->
        res_json res = Return v ->
        v <> JNull ->
        result (getPSTokenWithApiKey w args timeoutMs)
        = Return {| apiKey := Js.coalesce (Js.get (Some v) "apiKey")
                                (Some (JStr "(no apiKey in response)"));
                    accessToken := Js.coalesce (Js.get (Some v) "accessToken")
                                     (Some (JStr "(no accessToken in response)")) |}).
Proof.
  repeat split.
  - intros client_id client_secret timeoutMs res Hhttp Hok.
    unfold fetchPSToken, fetchPSToken_with. run_M. now rewrite Hhttp, Hok.
  - intros client_id client_secret timeoutMs res v Hhttp Hok Hjson Hfalsy.
    unfold fetchPSToken, fetchPSToken_with. run_M. rewrite Hhttp, Hok, Hjson.
    destruct v; cbn in Hfalsy |- *; try reflexivity; now rewrite Hfalsy.
  - intros args timeoutMs res Hhttp Hok.
    unfold getPSTokenWithApiKey. run_M. now rewrite Hhttp, Hok.
  - intros args timeoutMs res v Hhttp Hok Hjson Hnull.
    unfold getPSTokenWithApiKey. run_M. rewrite Hhttp, Hok, Hjson.
    destruct v; try reflexivity. now destruct Hnull.
Qed.

(** Witness of C6: a 401 fails both exchanges with the status and body;
    an empty object fails the OAuth exchange. *)
Lemma credential_exchange_failures_witness :
  result (fetchPSToken Scenario.hr_unauthorized (Some (JStr "id")) (Some (JStr "secret"))
            default_timeoutMs)
    = Throw ("fetchPSToken failed: PeopleStrong responded 401: "
             +:+ Js.stringify (JStr "denied"))
  /\ result (fetchPSToken Scenario.empty_reply (Some (JStr "id")) (Some (JStr "secret"))
               default_timeoutMs)
    = Throw "fetchPSToken failed: No access_token in response"
  /\ result (getPSTokenWithApiKey Scenario.hr_unauthorized Scenario.hris default_timeoutMs)
    = Throw ("getPSTokenWithApiKey failed: HTTP 401: " +:+ Js.stringify (JStr "denied")).
Proof.
  pose proof (credential_exchange_failures Scenario.hr_unauthorized)
    as (Hoauth & _ & Hkey & _).
  pose proof (credential_exchange_failures Scenario.empty_reply)
    as (_ & Hmissing & _).
  split; [| split].
  - apply (Hoauth _ _ _ {| res_status := 401;
                           res_text := Return (Js.stringify (JStr "denied"));
                           res_json := Return (JStr "denied") |}); reflexivity.
  - apply (Hmissing _ _ _ {| res_status := 200;
                             res_text := Return (Js.stringify (JObj []));
                             res_json := Return (JObj []) |} (JObj [])); reflexivity.
  - apply (Hkey _ _ {| res_status := 401;
                       res_text := Return (Js.stringify (JStr "denied"));
                       res_json := Return (JStr "denied") |}); reflexivity.
Defined.

(** ** The session map *)

(** Counterexample to C5 as stated: with ["abc"] bound to one transport, a
    second [GET /sse?id=abc] is accepted (no status is sent, the new
    transport is connected) and the map now holds the new transport. *)
Lemma get_sse_duplicate_replaces :
  Scenario.open_abc !! "abc" = Some Scenario.t0
  /\ (Http.get_sse Scenario.open_abc (Some (JStr "abc")) Scenario.t1).1 !! "abc"
     = Some Scenario.t1
  /\ (Http.get_sse Scenario.open_abc (Some (JStr "abc")) Scenario.t1).2
     = ([SetHeader "Cache-Control" "no-cache"; Connect Scenario.t1], Return tt).
Proof. repeat split; vm_compute; reflexivity. Qed.

(** C5, amended. A second registration under an id that is already bound
    is accepted, not rejected: the handler connects the new transport and
    the map binds the id to it, in place of the one it held; every other id
    keeps its binding. *)
Theorem get_sse_rebinds (streams : gmap string transport) id t_old t_new :
  streams !! id = Some t_old ->
  nonempty id = true ->
  (Http.get_sse streams (Some (JStr id)) t_new).1 !! id = Some t_new
  /\ (forall id', id' <> id ->
        (Http.get_sse streams (Some (JStr id)) t_new).1 !! id' = streams !! id')
  /\ (Http.get_sse streams (Some (JStr id)) t_new).2
     = ([SetHeader "Cache-Control" "no-cache"; Connect t_new], Return tt).
Proof.
  intros _ Hid. unfold Http.get_sse, Js.or. cbn [Js.truthy Js.String Js.to_string].
  rewrite Hid. cbn [Js.String Js.to_string]. rewrite Hid. cbn [negb fst snd].
  repeat split.
  - apply lookup_insert_eq.
  - intros id' Hne. now apply lookup_insert_ne.
Qed.

(** Witness of C5. *)
Lemma get_sse_rebinds_witness :
  (Http.get_sse Scenario.open_abc (Some (JStr "abc")) Scenario.t1).1 !! "abc"
    = Some Scenario.t1
  /\ (forall id', id' <> "abc" ->
        (Http.get_sse Scenario.open_abc (Some (JStr "abc")) Scenario.t1).1 !! id'
        = Scenario.open_abc !! id')
  /\ (Http.get_sse Scenario.open_abc (Some (JStr "abc")) Scenario.t1).2
     = ([SetHeader "Cache-Control" "no-cache"; Connect Scenario.t1], Return tt).
Proof.
  apply (get_sse_rebinds Scenario.open_abc "abc" Scenario.t0 Scenario.t1).
  - vm_compute. reflexivity.
  - reflexivity.
Defined.

(** The listener left by the replaced connection still deletes the id:
    when the old connection closes, the new transport is unbound. *)
Example replaced_connection_close_unbinds :
  Http.on_close (Http.get_sse Scenario.open_abc (Some (JStr "abc")) Scenario.t1).1 "abc"
    !! "abc" = None.
Proof. vm_compute. reflexivity. Qed.

Example get_sse_without_id :
  Http.get_sse Scenario.open_abc None Scenario.t1
  = (Scenario.open_abc, ([Respond 400 "session id required"], Return tt)).
Proof. reflexivity. Qed.

(** ** [POST /messages] *)

Lemma frames_app (a b : list effect) : frames (a ++ b) = frames a ++ frames b.
Proof. apply omap_app. Qed.

Lemma completions_app (a b : list effect) :
  completions (a ++ b) = completions a ++ completions b.
Proof. apply omap_app. Qed.

Lemma on_callback_frame t c : Http.on_callback t c = send t (callback_frame c).
Proof. now destruct c. Qed.

(** Firing the callbacks writes one frame each and leaves [saw] set as
    soon as there was one. *)
Lemma fire_spec t cs saw :
  Http.fire t cs saw
  = (map (fun c => Send t (callback_frame c)) cs,
     Return (match cs with [] => saw | _ => true end)).
Proof.
  revert saw. induction cs as [| c rest IH]; intros saw; [reflexivity |].
  cbn [Http.fire]. rewrite on_callback_frame.
  unfold mbind, M_bind, bind, send, emit. rewrite IH.
  now destruct rest.
Qed.

Lemma handlePostMessage_spec w t req :
  Http.handlePostMessage w t req
  = (HandlePostMessage t req
       :: map (fun c => Send t (callback_frame c)) (mcp_callbacks w t req),
     match mcp_settles w t req with
     | Return _ => Return (match mcp_callbacks w t req with [] => false | _ => true end)
     | Throw e => Throw e
     end).
Proof.
  unfold Http.handlePostMessage, mbind, M_bind, bind, emit, ret.
  rewrite fire_spec.
  destruct (mcp_settles w t req); cbn; now rewrite ?app_nil_r.
Qed.

(** [runChatLLM] asks the provider exactly once and writes no frame. *)
Lemma runChatLLM_trace w prompt :
  trace (runChatLLM w prompt) = [Create (runChatLLM_request prompt)].
Proof.
  unfold runChatLLM, create, await, mbind, M_bind, bind, trace, first_choice.
  destruct (openai w _) as [[| message others] | e]; reflexivity.
Qed.

(** With a truthy [content], the prompt of the fallback is the text the
    guard looked at. *)
Lemma content_text_raw req :
  nonempty (trim (content_text req)) = true ->
  Js.String (Js.field (body req) "content") = content_text req.
Proof.
  unfold content_text, Js.or.
  destruct (Js.truthy (Js.field (body req) "content")); [reflexivity |].
  cbn. discriminate.
Qed.

(** The courses of the handler on an open session. *)
Lemma post_messages_open w streams req t :
  streams !! Http.session_id req = Some t ->
  Http.post_messages w streams req
  = match mcp_settles w t req with
    | Throw e =>
        (HandlePostMessage t req
           :: map (fun c => Send t (callback_frame c)) (mcp_callbacks w t req),
         Throw e)
    | Return _ =>
        match mcp_callbacks w t req with
        | [] =>
            if nonempty (trim (content_text req)) then
              match result (runChatLLM w (content_text req)) with
              | Return reply =>
                  ([HandlePostMessage t req;
                    Create (runChatLLM_request (content_text req));
                    Send t (assistant_frame reply true)], Return tt)
              | Throw e =>
                  ([HandlePostMessage t req;
                    Create (runChatLLM_request (content_text req))], Throw e)
              end
            else ([HandlePostMessage t req], Return tt)
        | cs =>
            (HandlePostMessage t req :: map (fun c => Send t (callback_frame c)) cs,
             Return tt)
        end
    end.
Proof.
  intros Hopen. unfold Http.post_messages. rewrite Hopen, handlePostMessage_spec.
  fold (content_text req).
  destruct (mcp_settles w t req) as [[] | e]; [| reflexivity].
  destruct (mcp_callbacks w t req) as [| c rest].
  - cbn [map]. unfold mbind, M_bind, bind at 1. cbn [negb andb].
    destruct (nonempty (trim (content_text req))) eqn:Htext; [| reflexivity].
    rewrite (content_text_raw req Htext).
    pose proof (runChatLLM_trace w (content_text req)) as Htrace.
    unfold trace in Htrace. unfold result, bind, send, emit.
    destruct (runChatLLM w (content_text req)) as [tr [reply | e]];
      cbn in Htrace |- *; now subst tr.
  - unfold mbind, M_bind, bind. cbn [negb andb]. unfold ret.
    now rewrite app_nil_r.
Qed.



Section Fallback.

Variables (w : world) (streams : gmap string transport).
Variables (req : post_request) (t : transport).

Local Abbreviation content := (Js.field (body req) "content").

(** The request [runChatLLM] makes for the posted text, and the effects of
    a turn that delivers [reply]. *)
Local Abbreviation asked :=
  {| cr_model := "gpt-4o-mini";
     cr_tool_choice := None;
     cr_tools := [];
     cr_messages := [SystemMessage "You are a helpful HR assistant.";
                     UserMessage (Js.String content)] |}.

Local Abbreviation delivered reply :=
  [HandlePostMessage t req;
   Create asked;
   Send t [("role", JStr "assistant"); ("content", JStr reply); ("done", JBool true)]].


End Fallback.



(** ** Terminal frames *)

Lemma field_spread_set o k v : Js.field (Js.spread_set o k v) k = Some v.
Proof.
  induction o as [| [k' v'] rest IH]; cbn.
  - now rewrite String.eqb_refl.
  - destruct (String.eqb k k') eqn:Hk; cbn; now rewrite Hk.
Qed.

(** A callback's frame carries [done: true] exactly when the callback is
    terminal. *)
Lemma is_done_callback_frame c : is_done (callback_frame c) = terminal c.
Proof.
  destruct c as [token last | msg | msg]; cbn [callback_frame terminal].
  - now destruct last.
  - unfold is_done. now rewrite field_spread_set.
  - unfold is_done. now rewrite field_spread_set.
Qed.

Lemma frames_of_callbacks t cs :
  frames (map (fun c => Send t (callback_frame c)) cs)
  = map (fun c => (t, callback_frame c)) cs.
Proof. induction cs as [| c rest IH]; [reflexivity |]. cbn. now f_equal. Qed.

Lemma done_count_callbacks t cs :
  done_count (map (fun c => (t, callback_frame c)) cs)
  = length (List.filter terminal cs).
Proof.
  unfold done_count. induction cs as [| c rest IH]; [reflexivity |].
  cbn. rewrite is_done_callback_frame. destruct (terminal c); cbn; now rewrite IH.
Qed.

Lemma last_map {A B : Type} (f : A -> B) (l : list A) :
  last (map f l) = f <$> last l.
Proof.
  induction l as [| x rest IH]; [reflexivity |].
  destruct rest as [| y rest']; [reflexivity |].
  cbn [map]. rewrite !last_cons_cons. exact IH.
Qed.

(** A well-formed turn has one terminal callback, in last position. *)
Lemma one_terminal_last_count cs :
  cs <> [] ->
  one_terminal_last cs = true ->
  length (List.filter terminal cs) = 1 /\ terminal <$> last cs = Some true.
Proof.
  induction cs as [| c rest IH]; [congruence |]. intros _ Hwf.
  destruct rest as [| c' rest'].
  - cbn in Hwf |- *. now rewrite Hwf.
  - change (negb (terminal c) && one_terminal_last (c' :: rest') = true) in Hwf.
    apply andb_true_iff in Hwf as [Hc Hrest].
    destruct (IH ltac:(congruence) Hrest) as [Hcount Hlast].
    apply negb_true_iff in Hc.
    split.
    + cbn [List.filter]. rewrite Hc. exact Hcount.
    + exact Hlast.
Qed.

(** Once a callback has fired, the frames of the turn are exactly the
    frames of the callbacks: the fallback stays out. *)
Lemma post_messages_frames_fired w (streams : gmap string transport) req t :
  streams !! Http.session_id req = Some t ->
  mcp_callbacks w t req <> [] ->
  frames (trace (Http.post_messages w streams req))
  = map (fun c => (t, callback_frame c)) (mcp_callbacks w t req).
Proof.
  intros Hopen Hfired. rewrite (post_messages_open _ _ _ _ Hopen).
  destruct (mcp_callbacks w t req) as [| c rest]; [congruence |].
  destruct (mcp_settles w t req) as [[] | e];
    unfold trace; cbn [fst];
    exact (frames_of_callbacks t (c :: rest)).
Qed.

(** Without a callback, the only frame there can be is the fallback's. *)
Lemma post_messages_frames_silent w (streams : gmap string transport) req t :
  streams !! Http.session_id req = Some t ->
  mcp_callbacks w t req = [] ->
  frames (trace (Http.post_messages w streams req)) = []
  \/ exists reply,
      frames (trace (Http.post_messages w streams req))
      = [(t, assistant_frame reply true)].
Proof.
  intros Hopen Hsilent. rewrite (post_messages_open _ _ _ _ Hopen), Hsilent.
  destruct (mcp_settles w t req) as [[] | e]; [| now left].
  destruct (nonempty (trim (content_text req))); [| now left].
  destruct (result (runChatLLM w (content_text req))) as [reply | e];
    [right; now exists reply | now left].
Qed.

(** Counterexample to C1 as stated: a transport that reports an assistant
    message and then a tool result makes the handler write two frames with
    [done: true] for the one posted message. *)
Lemma post_messages_two_terminal_frames :
  Scenario.open_abc !! Http.session_id (Scenario.post "abc" "hi") = Some Scenario.t0
  /\ map (fun f => is_done (snd f))
       (frames (trace (Http.post_messages Scenario.message_then_tool Scenario.open_abc
                         (Scenario.post "abc" "hi"))))
     = [true; true]
  /\ done_count
       (frames (trace (Http.post_messages Scenario.message_then_tool Scenario.open_abc
                         (Scenario.post "abc" "hi"))))
     = 2.
Proof. repeat split; vm_compute; reflexivity. Qed.

(** C1, amended. For a message posted to an open session whose transport
    fires no callback, or fires exactly one terminal callback (a token marked
    last, an assistant message or a tool result) and fires it last: at most
    one frame with [done: true] is written; when any frame is written,
    exactly one carries [done: true] and it is the last one; and every frame
    goes to the session's transport.  This covers streamed tokens, a one-shot
    message, a tool result and the direct-completion fallback. *)
Theorem post_messages_one_terminal_frame w (streams : gmap string transport) req t :
  streams !! Http.session_id req = Some t ->
  one_terminal_last (mcp_callbacks w t req) = true ->
  done_count (frames (trace (Http.post_messages w streams req))) <= 1
  /\ (frames (trace (Http.post_messages w streams req)) <> [] ->
      done_count (frames (trace (Http.post_messages w streams req))) = 1
      /\ (fun f => is_done (snd f))
           <$> last (frames (trace (Http.post_messages w streams req)))
         = Some true)
  /\ Forall (fun f => fst f = t) (frames (trace (Http.post_messages w streams req))).
Proof.
  intros Hopen Hwf.
  destruct (mcp_callbacks w t req) as [| c rest] eqn:Hcs.
  - destruct (post_messages_frames_silent w streams req t Hopen Hcs)
      as [-> | [reply ->]];
      cbn; repeat split; try lia; try congruence; repeat constructor.
  - rewrite (post_messages_frames_fired w streams req t Hopen) by congruence.
    rewrite Hcs, done_count_callbacks.
    destruct (one_terminal_last_count (c :: rest) ltac:(congruence) Hwf)
      as [Hcount Hlast].
    repeat split.
    + lia.
    + exact Hcount.
    + rewrite last_map, <- option_fmap_compose.
      rewrite <- Hlast. apply option_fmap_ext. intros c0. cbn.
      apply is_done_callback_frame.
    + apply Forall_forall. intros f Hin. apply list_elem_of_In in Hin.
      apply in_map_iff in Hin as (c0 & <- & _). reflexivity.
Qed.

(** Witness of C1: two streamed tokens, the second marked last. *)
Lemma post_messages_one_terminal_frame_witness :
  done_count (frames (trace (Http.post_messages Scenario.two_tokens Scenario.open_abc
                               (Scenario.post "abc" "hi")))) <= 1
  /\ (frames (trace (Http.post_messages Scenario.two_tokens Scenario.open_abc
                       (Scenario.post "abc" "hi"))) <> [] ->
      done_count (frames (trace (Http.post_messages Scenario.two_tokens Scenario.open_abc
                                   (Scenario.post "abc" "hi")))) = 1
      /\ (fun f => is_done (snd f))
           <$> last (frames (trace (Http.post_messages Scenario.two_tokens
                                      Scenario.open_abc (Scenario.post "abc" "hi"))))
         = Some true)
  /\ Forall (fun f => fst f = Scenario.t0)
       (frames (trace (Http.post_messages Scenario.two_tokens Scenario.open_abc
                         (Scenario.post "abc" "hi")))).
Proof.
  apply (post_messages_one_terminal_frame Scenario.two_tokens Scenario.open_abc
           (Scenario.post "abc" "hi") Scenario.t0).
  - vm_compute. reflexivity.
  - reflexivity.
Defined.

Example post_messages_two_tokens_frames :
  frames (trace (Http.post_messages Scenario.two_tokens Scenario.open_abc
                   (Scenario.post "abc" "hi")))
  = [(Scenario.t0, assistant_frame "Hel" false); (Scenario.t0, assistant_frame "lo" true)].
Proof. vm_compute. reflexivity. Qed.

(** ** Dispatch in code *)

(** Counterexample to C4 as stated: when the provider asks for
    [getSalary], which neither revision matches, [runWithTools] returns the
    text ["(no answer)"], not a failure saying the tool was not found. *)
Lemma runWithTools_unknown_tool_no_answer :
  result (ThursdayDemo.runWithTools Scenario.unknown_tool "salary?") = Return "(no answer)"
  /\ result (EmployeeAgentDemo.runWithTools Scenario.unknown_tool "salary?")
     = Return "(no answer)"
  /\ String.eqb "(no answer)" "tool not found" = false.
Proof. repeat split; vm_compute; reflexivity. Qed.

(** C4, amended. When the provider's reply asks for a tool that
    [runWithTools] does not match, no handler is entered and nothing further
    is requested: the only effect is the first request to the provider, and
    the result is the text of that reply, or ["(no answer)"] when it has
    none.  No "tool not found" failure is produced. *)
Theorem runWithTools_unmatched_tool w prompt :
  (forall msg others call,
      openai w (first_request ThursdayDemo.tools prompt) = Return (Some msg :: others) ->
      requested_call msg = Some call ->
      call_name call <> "getWeather" ->
      ThursdayDemo.runWithTools w prompt
      = ([Create (first_request ThursdayDemo.tools prompt)],
         Return (default no_answer (msg_content msg)))
      /\ invocations (trace (ThursdayDemo.runWithTools w prompt)) = [])
  /\ (forall msg others call,
        openai w (first_request EmployeeAgentDemo.tools prompt)
        = Return (Some msg :: others) ->
        requested_call msg = Some call ->
        call_name call <> "getWeather" ->
        call_name call <> "getPSToken" ->
        EmployeeAgentDemo.runWithTools w prompt
        = ([Create (first_request EmployeeAgentDemo.tools prompt)],
           Return (default no_answer (msg_content msg)))
        /\ invocations (trace (EmployeeAgentDemo.runWithTools w prompt)) = []).
Proof.
  split.
  - intros msg others call Hfirst Hcall Hweather.
    apply String.eqb_neq in Hweather.
    assert (Hrun : ThursdayDemo.runWithTools w prompt
                   = ([Create (first_request ThursdayDemo.tools prompt)],
                      Return (default no_answer (msg_content msg)))).
    { unfold ThursdayDemo.runWithTools, create, await, mbind, M_bind, bind.
      rewrite Hfirst. cbn [first_choice asserted ret]. rewrite Hcall, Hweather.
      reflexivity. }
    now rewrite Hrun.
  - intros msg others call Hfirst Hcall Hweather Htoken.
    apply String.eqb_neq in Hweather. apply String.eqb_neq in Htoken.
    assert (Hrun : EmployeeAgentDemo.runWithTools w prompt
                   = ([Create (first_request EmployeeAgentDemo.tools prompt)],
                      Return (default no_answer (msg_content msg)))).
    { unfold EmployeeAgentDemo.runWithTools, create, await, mbind, M_bind, bind.
      rewrite Hfirst. cbn [first_choice asserted ret]. rewrite Hcall, Hweather, Htoken.
      reflexivity. }
    now rewrite Hrun.
Qed.

(** Witness of C4: the provider asks for [getSalary]. *)
Lemma runWithTools_unmatched_tool_witness :
  (ThursdayDemo.runWithTools Scenario.unknown_tool "salary?"
     = ([Create (first_request ThursdayDemo.tools "salary?")], Return no_answer)
   /\ invocations (trace (ThursdayDemo.runWithTools Scenario.unknown_tool "salary?")) = [])
  /\ (EmployeeAgentDemo.runWithTools Scenario.unknown_tool "salary?"
      = ([Create (first_request EmployeeAgentDemo.tools "salary?")], Return no_answer)
      /\ invocations (trace (EmployeeAgentDemo.runWithTools Scenario.unknown_tool "salary?"))
         = []).
Proof.
  destruct (runWithTools_unmatched_tool Scenario.unknown_tool "salary?")
    as [Hthursday Hagent].
  split.
  - apply (Hthursday (Scenario.asks_for "getSalary") []
             {| call_id := "call_1"; call_name := "getSalary"; call_arguments := "{}" |});
      [reflexivity | reflexivity | discriminate].
  - apply (Hagent (Scenario.asks_for "getSalary") []
             {| call_id := "call_1"; call_name := "getSalary"; call_arguments := "{}" |});
      [reflexivity | reflexivity | discriminate | discriminate].
Defined.

(** A matched tool, by contrast, enters its handler. *)
Example runWithTools_getPSToken_invokes :
  invocations (trace (EmployeeAgentDemo.runWithTools
                        (Scenario.make (Scenario.replying 401 (JStr "denied"))
                           (Return [Some (Scenario.asks_for "getPSToken")]) [])
                        "token?"))
  = ["getPSToken"].
Proof. vm_compute. reflexivity. Qed.

(** ** How computations compose *)

Lemma trace_bind {A B : Type} (m : M A) (k : A -> M B) :
  trace (m ≫= k)
  = trace m ++ match result m with
               | Return a => trace (k a)
               | Throw _ => []
               end.
Proof.
  destruct m as [tr [a | e]]; unfold mbind, M_bind, bind, trace, result; cbn.
  - now destruct (k a).
  - now rewrite app_nil_r.
Qed.

Lemma result_bind {A B : Type} (m : M A) (k : A -> M B) :
  result (m ≫= k)
  = match result m with
    | Return a => result (k a)
    | Throw e => Throw e
    end.
Proof.
  destruct m as [tr [a | e]]; unfold mbind, M_bind, bind, result; cbn;
    [now destruct (k a) | reflexivity].
Qed.

Lemma trace_try_catch {A : Type} (body : M A) (handler : string -> M A) :
  trace (try_catch body handler)
  = trace body ++ match result body with
                  | Return _ => []
                  | Throw e => trace (handler e)
                  end.
Proof.
  destruct body as [tr [a | e]]; unfold try_catch, trace, result; cbn.
  - now rewrite app_nil_r.
  - now destruct (handler e).
Qed.

Lemma result_try_catch {A : Type} (body : M A) (handler : string -> M A) :
  result (try_catch body handler)
  = match result body with
    | Return a => Return a
    | Throw e => result (handler e)
    end.
Proof.
  destruct body as [tr [a | e]]; unfold try_catch, result; cbn;
    [reflexivity | now destruct (handler e)].
Qed.

(** A computation is silent when it leaves no trace. *)
Lemma silent_bind {A B : Type} (m : M A) (k : A -> M B) :
  trace m = [] -> (forall a, trace (k a) = []) -> trace (m ≫= k) = [].
Proof.
  intros Hm Hk. rewrite trace_bind, Hm. destruct (result m); cbn; auto.
Qed.

Lemma silent_member v k : trace (member v k) = [].
Proof. now destruct v as [[| | | | |]|]. Qed.

Lemma silent_destructure v k : trace (destructure v k) = [].
Proof. now destruct v. Qed.

Lemma silent_first_of v : trace (first_of v) = [].
Proof. now destruct v as [[| | |[|]| |]|]. Qed.

Lemma silent_index0 v : trace (index0 v) = [].
Proof. now destruct v as [[| | |[|]| |]|]. Qed.

Lemma silent_guard (b : bool) (message : string) :
  trace (if b then throw message else ret tt : M unit) = [].
Proof. now destruct b. Qed.

(** ** One request per call *)

Lemma psPost_trace w url args apiKey accessToken timeoutMs :
  trace (psPost w url args apiKey accessToken timeoutMs)
  = [Fetch (psPost_request url args apiKey accessToken timeoutMs)].
Proof.
  unfold psPost. rewrite trace_try_catch, result_bind, trace_bind.
  unfold fetch at 1 2 3, await. cbn [trace result fst snd].
  destruct (http w _) as [res | e]; [| reflexivity].
  rewrite result_bind, trace_bind.
  destruct (res_ok res); cbn; [| reflexivity].
  unfold await_json. now destruct (res_json res).
Qed.


Lemma fetchPSToken_with_trace missing w client_id client_secret timeoutMs :
  trace (fetchPSToken_with missing w client_id client_secret timeoutMs)
  = [Fetch (fetchPSToken_request client_id client_secret timeoutMs)].
Proof.
  unfold fetchPSToken_with.
  rewrite trace_try_catch, result_bind, trace_bind.
  unfold fetch at 1 2 3, await. cbn [trace result fst snd].
  destruct (http w _) as [res | e]; [| reflexivity].
  rewrite result_bind, trace_bind.
  destruct (res_ok res); cbn; [| reflexivity].
  unfold await_json. destruct (res_json res) as [v | e]; [| reflexivity].
  cbn. destruct v as [| | | | |fields]; cbn; try reflexivity.
  now destruct (Js.truthy (Js.field fields "access_token")).
Qed.

Lemma getPSTokenWithApiKey_trace w args timeoutMs :
  trace (getPSTokenWithApiKey w args timeoutMs)
  = [Fetch (getPSTokenWithApiKey_request w args timeoutMs)].
Proof.
  unfold getPSTokenWithApiKey.
  rewrite trace_try_catch, result_bind, trace_bind.
  unfold fetch at 1 2 3, await. cbn [trace result fst snd].
  destruct (http w _) as [res | e]; [| reflexivity].
  rewrite result_bind, trace_bind.
  destruct (res_ok res); cbn; [| reflexivity].
  unfold await_json. destruct (res_json res) as [v | e]; [| reflexivity].
  now destruct v.
Qed.

Lemma getWeather_trace w city :
  trace (getWeather w city) = [Fetch (getWeather_request city)].
Proof.
  unfold getWeather. rewrite trace_bind.
  unfold fetch at 1 2, await. cbn [trace result fst snd].
  destruct (http w _) as [res | e]; [| reflexivity].
  rewrite silent_bind; [reflexivity | apply silent_guard |].
  intros _. apply silent_bind; [unfold await_json; reflexivity |].
  intros json. apply silent_bind; [apply silent_destructure |].
  intros cc. apply silent_bind; [apply silent_first_of |].
  intros cur. apply silent_bind; [apply silent_member |].
  intros temp_C. apply silent_bind; [apply silent_member |].
  intros weatherDesc. apply silent_bind; [apply silent_index0 |].
  intros desc. apply silent_bind; [apply silent_member |].
  reflexivity.
Qed.

(** X1. Each of the four network helpers of [tools.ts] issues exactly one
    request, whatever the peer answers: a failure is never retried and no
    second endpoint is tried. *)
Theorem tools_single_request w :
  (forall url args apiKey accessToken timeoutMs,
      trace (psPost w url args apiKey accessToken timeoutMs)
      = [Fetch (psPost_request url args apiKey accessToken timeoutMs)])
  /\ (forall client_id client_secret timeoutMs,
        trace (fetchPSToken w client_id client_secret timeoutMs)
        = [Fetch (fetchPSToken_request client_id client_secret timeoutMs)])
  /\ (forall args timeoutMs,
        trace (getPSTokenWithApiKey w args timeoutMs)
        = [Fetch (getPSTokenWithApiKey_request w args timeoutMs)])
  /\ (forall city, trace (getWeather w city) = [Fetch (getWeather_request city)]).
Proof.
  repeat split; intros.
  - apply psPost_trace.
  - apply fetchPSToken_with_trace.
  - apply getPSTokenWithApiKey_trace.
  - apply getWeather_trace.
Qed.

(** ** What the helpers of [tools.ts] can return *)

Lemma startsWith_append (p s : string) : startsWith (p +:+ s) p = true.
Proof. apply prefix_append. Qed.

(** A serialised list is never taken for a failure. *)
Lemma is_failure_list (l : list json) : is_failure (Js.stringify (JArr l)) = false.
Proof. reflexivity. Qed.

(** X2. Whatever the peer answers, [psPost] returns a string that is either
    a failure text or the serialisation of at most five entries, which are
    the first entries of the list the peer sent; the two are told apart by
    the failure prefix. *)
Theorem psPost_result_shape w url args apiKey accessToken timeoutMs :
  exists toolResult,
    result (psPost w url args apiKey accessToken timeoutMs) = Return toolResult
    /\ ((exists message,
            toolResult = psPost_error +:+ message /\ is_failure toolResult = true)
        \/ (exists res v,
               http w (psPost_request url args apiKey accessToken timeoutMs) = Return res
               /\ res_json res = Return v
               /\ toolResult = Js.stringify (JArr (take 5 (employeeList v)))
               /\ length (take 5 (employeeList v)) <= 5
               /\ is_failure toolResult = false)).
Proof.
  unfold psPost. run_M.
  destruct (http w _) as [res | e] eqn:Hhttp; cbn.
  - destruct (res_ok res); cbn.
    + destruct (res_json res) as [v | e] eqn:Hjson; cbn.
      * eexists. split; [reflexivity |]. right. exists res, v.
        repeat split; auto. rewrite length_take. lia.
      * eexists. split; [reflexivity |]. left. eexists. split; [reflexivity |].
        apply is_failure_error.
    + eexists. split; [reflexivity |]. left. eexists. split; [reflexivity |].
      apply is_failure_error.
  - eexists. split; [reflexivity |]. left. eexists. split; [reflexivity |].
    apply is_failure_error.
Qed.

(** X3. [fetchPSToken] never hands back a falsy token (missing, [null],
    empty, [0] or [false]), and every error it throws starts with
    ["fetchPSToken failed: "]. *)
Theorem fetchPSToken_result_shape w client_id client_secret timeoutMs :
  match result (fetchPSToken w client_id client_secret timeoutMs) with
  | Return token => Js.truthy token = true
  | Throw message => startsWith message "fetchPSToken failed: " = true
  end.
Proof.
  unfold fetchPSToken, fetchPSToken_with. run_M.
  destruct (http w _) as [res | e]; cbn; [| apply startsWith_append].
  destruct (res_ok res); cbn; [| apply startsWith_append].
  destruct (res_json res) as [v | e]; cbn; [| apply startsWith_append].
  destruct v as [| | | | |fields]; cbn; try apply startsWith_append.
  destruct (Js.truthy (Js.field fields "access_token")) eqn:Htoken; cbn;
    [exact Htoken | apply startsWith_append].
Qed.

(** X4. [getPSTokenWithApiKey] never hands back a credential with a [null]
    or missing member, and every error it throws starts with
    ["getPSTokenWithApiKey failed: "]. *)
Theorem getPSTokenWithApiKey_result_shape w args timeoutMs :
  match result (getPSTokenWithApiKey w args timeoutMs) with
  | Return cred =>
      Js.nullish (apiKey cred) = false /\ Js.nullish (accessToken cred) = false
  | Throw message => startsWith message "getPSTokenWithApiKey failed: " = true
  end.
Proof.
  unfold getPSTokenWithApiKey. run_M.
  destruct (http w _) as [res | e]; cbn; [| apply startsWith_append].
  destruct (res_ok res); cbn; [| apply startsWith_append].
  destruct (res_json res) as [v | e]; cbn; [| apply startsWith_append].
  assert (Hcoalesce : forall a s, Js.nullish (Js.coalesce a (Some (JStr s))) = false).
  { intros a s. unfold Js.coalesce. now destruct (Js.nullish a) eqn:Ha. }
  destruct v; cbn; try apply startsWith_append; split;
    first [reflexivity | apply Hcoalesce].
Qed.

(** ** The HR lookups *)





(** The date range [k] of the arguments, when it is to be forwarded:
    its [value] must be truthy. *)
Lemma with_date_field k args payload :
  Js.field (with_date k args payload) k
  = match Js.field args k with
    | Some d => if Js.truthy (optional_get (Some d) "value") then Some d
                else Js.field payload k
    | None => Js.field payload k
    end.
Proof.
  unfold with_date. destruct (Js.field args k) as [d |]; [| reflexivity].
  destruct (Js.truthy _); [| reflexivity].
  induction payload as [| [k0 v0] rest IH]; cbn.
  - now rewrite String.eqb_refl.
  - destruct (String.eqb k k0) eqn:Hk; cbn; now rewrite Hk.
Qed.

Lemma with_date_other k args payload k' :
  k' <> k -> Js.field (with_date k args payload) k' = Js.field payload k'.
Proof.
  intros Hne. unfold with_date. destruct (Js.field args k) as [d |]; [| reflexivity].
  destruct (Js.truthy _); [| reflexivity].
  induction payload as [| [k0 v0] rest IH]; cbn.
  - apply String.eqb_neq in Hne. now rewrite Hne.
  - destruct (String.eqb k k0) eqn:Hk; cbn.
    + apply String.eqb_eq in Hk as <-. apply String.eqb_neq in Hne. now rewrite Hne.
    + now rewrite IH.
Qed.

Section Lookups.

(** The credential a lookup of [module] at [route] asks for. *)
Local Abbreviation exchange module route :=
  {| organizationId := 3; sysModuleName := module; routePath := route |}.

(** What the lookup [f] does, when the source names it [name], its
    integration master [master], its module [module] and its route [route]: the
    credential for that module and route is exchanged first; if that fails,
    [f] throws ["<name> failed: "] followed by the error and contacts nothing
    else; otherwise it posts, to that route on the integration host and with
    the credential in the headers, a payload that names [master] and carries a
    [dynamicFilter] (the empty list when the caller gave none), and returns what
    [psPost] returns. *)
Local Abbreviation looks_up f name module master route :=
  (forall (w : world) (args : list (string * json)),
      exists payload,
        Js.field payload "integrationMasterName" = Some (JStr master)
        /\ Js.field payload "dynamicFilter"
           = Some (coalesce_json (Js.field args "dynamicFilter") (JArr []))
        /\ match result (getPSTokenWithApiKey w (exchange module route) 8000) with
           | Throw message =>
               f w args
               = ([Fetch (getPSTokenWithApiKey_request w (exchange module route) 8000)],
                  Throw (name +:+ " failed: " +:+ message))
           | Return cred =>
               exists toolResult,
                 f w args
                 = ([Fetch (getPSTokenWithApiKey_request w (exchange module route) 8000);
                     Fetch (psPost_request ("https://uat-api.peoplestrong.com" +:+ route)
                              (JObj payload)
                              (Js.String (apiKey cred)) (Js.String (accessToken cred))
                              8000)],
                    Return toolResult)
                 /\ result (psPost w ("https://uat-api.peoplestrong.com" +:+ route)
                              (JObj payload)
                              (Js.String (apiKey cred)) (Js.String (accessToken cred))
                              8000)
                    = Return toolResult
           end).


End Lookups.

Example getEmployeeDetails_six :
  getEmployeeDetails Examples.hr [("startDate", JObj [("value", JStr "2024-01-01")])]
  = ([Fetch (getPSTokenWithApiKey_request Examples.hr
               (integration_args (hris "getEmployeeDetails" "testAgent"))
               default_timeoutMs);
      Fetch (psPost_request
               "https://uat-api.peoplestrong.com/api/integration/Outbound/PeopleStrongHRServices_HRIS_testAgent"
               (JObj [("integrationMasterName", JStr "testAgent");
                      ("dynamicFilter", JArr []);
                      ("startDate", JObj [("value", JStr "2024-01-01")])])
               "key-1" "token-1" default_timeoutMs)],
     Return (Js.stringify (JArr (take 5 Scenario.six)))).
Proof. vm_compute. reflexivity. Qed.

Example getCandidateDetails_unauthorized :
  result (getCandidateDetails Scenario.hr_unauthorized [])
  = Throw ("getCandidateDetails failed: getPSTokenWithApiKey failed: HTTP 401: "
           +:+ Js.stringify (JStr "denied")).
Proof. vm_compute. reflexivity. Qed.

(** X24. [getEmployeeDetails] forwards [startDate] and [endDate] each on its
    own, and only when the range has a truthy [value]: a range that is absent,
    [null], or whose value is missing or empty is left out of the payload
    without an error, and a forwarded range is forwarded whole. *)
Theorem getEmployeeDetails_dates w args :
  exists payload,
    getEmployeeDetails w args
    = hr_lookup w (hris "getEmployeeDetails" "testAgent") payload
    /\ Js.field payload "startDate"
       = match Js.field args "startDate" with
         | Some d => if Js.truthy (optional_get (Some d) "value") then Some d else None
         | None => None
         end
    /\ Js.field payload "endDate"
       = match Js.field args "endDate" with
         | Some d => if Js.truthy (optional_get (Some d) "value") then Some d else None
         | None => None
         end.
Proof.
  eexists. split; [reflexivity |]. split.
  - rewrite with_date_other by discriminate. now rewrite with_date_field.
  - rewrite with_date_field.
    rewrite with_date_other by discriminate. reflexivity.
Qed.

Example getEmployeeDetails_empty_start :
  exists tr,
    getEmployeeDetails Examples.hr
      [("startDate", JObj [("value", JStr EmptyString)]);
       ("endDate", JObj [("value", JStr "2024-12-31")])]
    = ([Fetch (getPSTokenWithApiKey_request Examples.hr
                 (integration_args (hris "getEmployeeDetails" "testAgent"))
                 default_timeoutMs);
        Fetch (psPost_request
                 (integration_url (hris "getEmployeeDetails" "testAgent"))
                 (JObj [("integrationMasterName", JStr "testAgent");
                        ("dynamicFilter", JArr []);
                        ("endDate", JObj [("value", JStr "2024-12-31")])])
                 "key-1" "token-1" default_timeoutMs)], tr).
Proof. eexists. vm_compute. reflexivity. Qed.
(** ** Field codes, again *)

Lemma append_assoc (a b c : string) : (a +:+ b) +:+ c = a +:+ (b +:+ c).
Proof.
  induction a as [| x a IH]; [reflexivity |].
  change (String x ((a +:+ b) +:+ c) = String x (a +:+ (b +:+ c))). now f_equal.
Qed.

Lemma white_space_cases sp :
  In sp white_space ->
  forall P : string -> Prop, Forall P white_space -> P sp.
Proof.
  intros Hsp P HP. induction HP as [| sp' l Hhead Htail IH]; [contradiction |].
  destruct Hsp as [<- | Hsp]; auto.
Qed.

(** White space is deleted whatever follows it. *)
Lemma remove_whitespace_space sp s :
  In sp white_space -> remove_whitespace (sp +:+ s) = remove_whitespace s.
Proof.
  intros Hsp. apply (white_space_cases sp Hsp). unfold remove_whitespace.
  destruct s as [| c s]; repeat constructor.
Qed.

(** Lower-casing leaves white space alone. *)
Lemma toLowerCase_space sp s :
  In sp white_space -> toLowerCase (sp +:+ s) = sp +:+ toLowerCase s.
Proof.
  intros Hsp. apply (white_space_cases sp Hsp). unfold toLowerCase.
  repeat constructor.
Qed.

Lemma fieldCode_key_space sp s :
  In sp white_space -> fieldCode_key (sp +:+ s) = fieldCode_key s.
Proof.
  intros Hsp. unfold fieldCode_key.
  now rewrite toLowerCase_space, remove_whitespace_space.
Qed.

(** A letter or digit of a word is kept, in lower case. *)
Lemma fieldCode_key_char c (upper : bool) s :
  plain_char c = true ->
  fieldCode_key (String (if upper then upper_char c else c) s)
  = String c (fieldCode_key s).
Proof.
  intros Hc. unfold fieldCode_key, toLowerCase, remove_whitespace.
  destruct c as [[] [] [] [] [] [] [] []]; try discriminate Hc;
    destruct upper; reflexivity.
Qed.

Lemma fieldCode_key_gap gap s :
  Forall (fun sp => In sp white_space) gap ->
  fieldCode_key (fold_right String.append EmptyString gap +:+ s) = fieldCode_key s.
Proof.
  induction 1 as [| sp gap Hsp Hgap IH]; [reflexivity |].
  cbn [fold_right]. rewrite append_assoc. now rewrite fieldCode_key_space.
Qed.

Lemma well_spaced_cons gap upper how :
  well_spaced ((gap, upper) :: how) = true ->
  Forall (fun sp => In sp white_space) gap /\ well_spaced how = true.
Proof.
  unfold well_spaced. cbn [forallb fst]. intros Hhow.
  apply andb_true_iff in Hhow as [Hgap Hhow]. split; [| exact Hhow].
  induction gap as [| sp gap IH]; [constructor |].
  cbn [forallb] in Hgap. apply andb_true_iff in Hgap as [Hsp Hgap].
  constructor; [| exact (IH Hgap)].
  apply existsb_exists in Hsp as (sp' & Hin & Heq).
  now apply String.eqb_eq in Heq as ->.
Qed.

(** The key of a spelt word, followed by anything, is the word, followed by
    the key of what follows. *)
Lemma fieldCode_key_spelling word how rest :
  all_chars plain_char word = true ->
  well_spaced how = true ->
  fieldCode_key (spelling word how +:+ rest) = word +:+ fieldCode_key rest.
Proof.
  revert how. induction word as [| c word IH]; intros how Hword Hhow; [reflexivity |].
  cbn [all_chars] in Hword. apply andb_true_iff in Hword as [Hc Hword].
  destruct how as [| [gap upper] how]; cbn [spelling].
  - change (String c (spelling word []) +:+ rest)
      with (String (if false then upper_char c else c) (spelling word [] +:+ rest)).
    rewrite (fieldCode_key_char c false _ Hc).
    change (String c word +:+ fieldCode_key rest)
      with (String c (word +:+ fieldCode_key rest)).
    now rewrite (IH [] Hword Hhow).
  - apply well_spaced_cons in Hhow as [Hgap Hhow].
    rewrite append_assoc, (fieldCode_key_gap gap _ Hgap).
    change (String (if upper then upper_char c else c) (spelling word how) +:+ rest)
      with (String (if upper then upper_char c else c) (spelling word how +:+ rest)).
    rewrite (fieldCode_key_char c upper _ Hc).
    change (String c word +:+ fieldCode_key rest)
      with (String c (word +:+ fieldCode_key rest)).
    now rewrite (IH how Hword Hhow).
Qed.

(** X8. However the word of a rule is written at the head of a code -
    letters in either case, any white space before and between its characters,
    the no-break space and the other white space outside ASCII included - the
    code gets the name of that rule, whatever follows the word. *)
Theorem normalizeFieldCode_spelling word name how rest :
  In (word, name) rules ->
  well_spaced how = true ->
  normalizeFieldCode (spelling word how +:+ rest) = name.
Proof.
  intros Hrule Hhow. unfold normalizeFieldCode.
  unfold rules in Hrule. simpl in Hrule.
  repeat (destruct Hrule as [Hrule | Hrule];
          [ injection Hrule as <- <-;
            rewrite fieldCode_key_spelling by (assumption || reflexivity);
            destruct (fieldCode_key rest); reflexivity
          |]).
  contradiction.
Qed.

(** Witness of X8: [D], a space and a no-break space, [O], an ideographic
    space, [B], and a remark after it. *)
Lemma normalizeFieldCode_spelling_witness :
  normalizeFieldCode
    (spelling "dob" [([], true); ([" "; bytes [194; 160]], true);
                     ([bytes [227; 128; 128]], true)]
     +:+ " (dd/mm)")
  = "Birth Date".
Proof.
  apply (normalizeFieldCode_spelling "dob" "Birth Date"); [| reflexivity].
  unfold rules. simpl. tauto.
Defined.

Example spelling_dob :
  spelling "dob" [([], true); ([" "; bytes [194; 160]], true);
                  ([bytes [227; 128; 128]], true)]
  = bytes [68; 32; 194; 160; 79; 227; 128; 128; 66].
Proof. reflexivity. Qed.

(** A capital I with a dot lower-cases to an [i] and a combining dot, so it
    does not spell the [i] of a word; the Kelvin sign lower-cases to [k]. *)
Example normalizeFieldCode_dotted_i :
  normalizeFieldCode ("JO" +:+ capital_i_dotted +:+ "N")
  = "JO" +:+ capital_i_dotted +:+ "N"
  /\ toLowerCase ("JO" +:+ capital_i_dotted +:+ "N") = "jo" +:+ i_dot_above +:+ "n"
  /\ toLowerCase kelvin_sign = "k".
Proof. repeat split; reflexivity. Qed.

(** ** The weather lookup *)

Lemma all_chars_app p s1 s2 :
  all_chars p (s1 +:+ s2) = all_chars p s1 && all_chars p s2.
Proof.
  induction s1 as [| c s1 IH]; [reflexivity |].
  simpl. now rewrite IH, andb_assoc.
Qed.

Lemma upper_hex_digit_safe n : (n < 16)%nat -> uri_safe (Uri.upper_hex_digit n) = true.
Proof.
  intros Hn.
  do 16 (destruct n as [| n]; [reflexivity |]). lia.
Qed.

Lemma percent_safe c : all_chars uri_safe (Uri.percent c) = true.
Proof.
  unfold Uri.percent. cbn [all_chars].
  pose proof (Ascii.nat_ascii_bounded c) as Hc.
  rewrite !upper_hex_digit_safe; [reflexivity | |].
  - apply Nat.mod_upper_bound. lia.
  - apply Nat.Div0.div_lt_upper_bound. lia.
Qed.

Lemma encodeURIComponent_safe s : all_chars uri_safe (Uri.encodeURIComponent s) = true.
Proof.
  induction s as [| c s IH]; [reflexivity |].
  cbn [Uri.encodeURIComponent]. rewrite all_chars_app, IH, andb_true_r.
  destruct (Uri.unreserved c) eqn:Hc; [| apply percent_safe].
  cbn. unfold uri_safe. now rewrite Hc.
Qed.

(** X6. Whatever the city, [getWeather] requests
    [https://wttr.in/<segment>?format=j1] where the segment holds only
    letters, digits, [- _ . ! ~ * ' ( )] and [%]: a city name cannot add a
    path separator, a query or a fragment to the address. *)
Theorem getWeather_url_safe (city : string) :
  rq_url (getWeather_request city)
  = "https://wttr.in/" +:+ Uri.encodeURIComponent city +:+ "?format=j1"
  /\ all_chars uri_safe (Uri.encodeURIComponent city) = true
  /\ all_chars (fun c => negb (Ascii.eqb c "/" || Ascii.eqb c "?" || Ascii.eqb c "#"
                               || Ascii.eqb c "&" || Ascii.eqb c " "))
       (Uri.encodeURIComponent city) = true.
Proof.
  split; [reflexivity |]. split; [apply encodeURIComponent_safe |].
  pose proof (encodeURIComponent_safe city) as Hsafe.
  induction (Uri.encodeURIComponent city) as [| c s IH]; [reflexivity |].
  cbn in Hsafe |- *. apply andb_true_iff in Hsafe as [Hc Hs].
  rewrite (IH Hs), andb_true_r.
  destruct (Ascii.eqb_spec c "/") as [-> |]; [discriminate |].
  destruct (Ascii.eqb_spec c "?") as [-> |]; [discriminate |].
  destruct (Ascii.eqb_spec c "#") as [-> |]; [discriminate |].
  destruct (Ascii.eqb_spec c "&") as [-> |]; [discriminate |].
  destruct (Ascii.eqb_spec c " ") as [-> |]; [discriminate |].
  reflexivity.
Qed.

Example encodeURIComponent_new_delhi :
  Uri.encodeURIComponent "New Delhi/?x" = "New%20Delhi%2F%3Fx".
Proof. reflexivity. Qed.



Example getWeather_without_temperature :
  result (getWeather
            (Scenario.make
               (Scenario.replying 200
                  (JObj [("current_condition",
                          JArr [JObj [("weatherDesc", JArr [JObj []])]])]))
               (Scenario.says "Hello") [])
            "Delhi")
  = Return "Weather in Delhi: undefined °C, undefined".
Proof. vm_compute. reflexivity. Qed.

Example getWeather_without_conditions :
  result (getWeather Scenario.empty_reply "Delhi") = Throw not_iterable.
Proof. vm_compute. reflexivity. Qed.


(** ** The bearer-token middleware *)

Lemma split_space_cons s : exists piece pieces, Auth.split_space s = piece :: pieces.
Proof.
  induction s as [| c s (piece & pieces & IH)]; [now exists EmptyString, [] |].
  cbn. destruct (Auth.is_space c); [eauto |]. rewrite IH. eauto.
Qed.

Lemma split_space_word s rest :
  no_space s = true ->
  Auth.split_space (s +:+ " " +:+ rest) = s :: Auth.split_space rest.
Proof.
  induction s as [| c s IH]; intros Hs; [reflexivity |].
  cbn in Hs. apply andb_true_iff in Hs as [Hc Hs].
  apply negb_true_iff in Hc.
  simpl. rewrite Hc. now rewrite (IH Hs).
Qed.

Lemma split_space_last s : no_space s = true -> Auth.split_space s = [s].
Proof.
  induction s as [| c s IH]; intros Hs; [reflexivity |].
  cbn in Hs. apply andb_true_iff in Hs as [Hc Hs].
  apply negb_true_iff in Hc.
  simpl. rewrite Hc. now rewrite (IH Hs).
Qed.

(** The library does hand the key on when the key function calls the
    function it was given, its second argument. *)
Lemma verify_second_argument lib token secret callback :
  Auth.verify lib token
    (fun arguments =>
       match arguments !! 1%nat with
       | Some (Auth.KeyCallback k) => k secret
       | _ => throw "callback is not a function"
       end)
    callback
  = match Auth.decode lib token with
    | Throw message => callback (Throw message)
    | Return _ => callback (Auth.check lib token secret)
    end.
Proof. unfold Auth.verify. now destruct (Auth.decode lib token). Qed.

(** X9. The middleware never calls [next].  A request without an
    [Authorization] header, or with an empty one, is answered 401; one whose
    second space-separated field the library cannot decode is answered 403;
    and for one whose token decodes, the library calls the key function with
    two arguments, the key function calls its third parameter, and the
    middleware throws without having answered and without the token having
    been checked. *)
Theorem authenticate_never_passes w lib authorization :
  match Auth.authenticate w lib authorization with
  | (tr, Return (Some user)) => False
  | (tr, Return None) =>
      (tr = [Respond 401 "Missing Authorization header"]
       /\ (authorization = None \/ authorization = Some EmptyString))
      \/ (tr = [Respond 403 "Invalid token"]
          /\ exists authHeader message,
              authorization = Some authHeader
              /\ nonempty authHeader = true
              /\ Auth.decode lib (Auth.token_of authHeader) = Throw message)
  | (tr, Throw _) =>
      tr = []
      /\ exists authHeader header,
          authorization = Some authHeader
          /\ nonempty authHeader = true
          /\ Auth.decode lib (Auth.token_of authHeader) = Return header
  end.
Proof.
  unfold Auth.authenticate, Auth.verify, Auth.jwtKeyCallback.
  destruct authorization as [[| c s] |]; cbn; [tauto | | tauto].
  destruct (Auth.decode lib _) as [header | message] eqn:Hdecode; cbn.
  - split; [reflexivity |]. eexists _, _. repeat split. exact Hdecode.
  - right. split; [reflexivity |]. eexists _, _. repeat split. exact Hdecode.
Qed.

Example authenticate_decodable :
  Auth.authenticate Examples.with_secret Examples.jwt (Some "Bearer a.b.c")
  = ([], Throw "callback is not a function").
Proof. reflexivity. Qed.

Example authenticate_malformed :
  Auth.authenticate Examples.with_secret Examples.jwt (Some "Bearer abc")
  = ([Respond 403 "Invalid token"], Return None).
Proof. reflexivity. Qed.

(** The scheme word and what follows a second space do not reach the
    library. *)
Lemma token_of_second_word scheme token rest :
  no_space scheme = true ->
  no_space token = true ->
  Auth.token_of (scheme +:+ " " +:+ token) = Some token
  /\ Auth.token_of (scheme +:+ " " +:+ token +:+ " " +:+ rest) = Some token
  /\ Auth.token_of scheme = None.
Proof.
  intros Hscheme Htoken. unfold Auth.token_of.
  rewrite !split_space_word by assumption.
  rewrite split_space_last by assumption.
  rewrite (split_space_last scheme) by assumption.
  now repeat split.
Qed.

(** X10. The scheme word of the header is never looked at, and neither is
    anything after a second space: whatever the first word, the middleware
    does with the request exactly what it does with [Bearer <token>]; a header
    without any space hands the library no token at all. *)
Theorem authenticate_ignores_scheme w lib scheme token rest :
  no_space scheme = true ->
  no_space token = true ->
  Auth.authenticate w lib (Some (scheme +:+ " " +:+ token))
    = Auth.authenticate w lib (Some ("Bearer " +:+ token))
  /\ Auth.authenticate w lib (Some (scheme +:+ " " +:+ token +:+ " " +:+ rest))
     = Auth.authenticate w lib (Some ("Bearer " +:+ token))
  /\ Auth.token_of scheme = None.
Proof.
  intros Hscheme Htoken.
  destruct (token_of_second_word scheme token rest Hscheme Htoken)
    as (Hfirst & Hrest & Halone).
  destruct (token_of_second_word "Bearer" token rest eq_refl Htoken) as (Hbearer & _).
  assert (Hnonempty : forall tail, nonempty (scheme +:+ " " +:+ tail) = true)
    by (intros tail; now destruct scheme).
  unfold Auth.authenticate.
  rewrite !Hnonempty, Hfirst, Hrest.
  change ("Bearer " +:+ token) with ("Bearer" +:+ " " +:+ token).
  rewrite Hbearer. now repeat split.
Qed.

(** Witness of X10: [Basic a.b.c] is treated like [Bearer a.b.c]. *)
Lemma authenticate_ignores_scheme_witness :
  Auth.authenticate Examples.with_secret Examples.jwt (Some "Basic a.b.c")
    = Auth.authenticate Examples.with_secret Examples.jwt (Some "Bearer a.b.c")
  /\ Auth.authenticate Examples.with_secret Examples.jwt (Some "Basic a.b.c and more")
     = Auth.authenticate Examples.with_secret Examples.jwt (Some "Bearer a.b.c")
  /\ Auth.token_of "Basic" = None.
Proof.
  exact (authenticate_ignores_scheme Examples.with_secret Examples.jwt
           "Basic" "a.b.c" "and more" eq_refl eq_refl).
Defined.

Example authenticate_two_spaces :
  Auth.authenticate Examples.with_secret Examples.jwt (Some "Bearer  a.b.c")
  = ([Respond 403 "Invalid token"], Return None).
Proof. reflexivity. Qed.

(** ** The life of the session map *)

Lemma get_sse_streams (streams : gmap string transport) query_id t :
  (Http.get_sse streams query_id t).1
  = if nonempty (Registry.subscribed_id query_id)
    then <[Registry.subscribed_id query_id := t]> streams
    else streams.
Proof.
  unfold Http.get_sse, Registry.subscribed_id.
  now destruct (nonempty _).
Qed.

Lemma after_snoc es e : Registry.after (es ++ [e]) = Registry.step (Registry.after es) e.
Proof. unfold Registry.after. now rewrite foldl_app. Qed.

Lemma nonempty_empty_ne id : nonempty id = true -> id <> EmptyString.
Proof. now destruct id. Qed.

(** What every map reached from the empty one satisfies. *)
Lemma registry_invariant_core (es : list Registry.event) :
  Registry.after es !! EmptyString = None
  /\ forall id t,
       Registry.after es !! id = Some t ->
       exists query_id,
         In (Registry.Subscribe query_id t) es
         /\ Registry.subscribed_id query_id = id.
Proof.
  induction es as [| e es [IHempty IHbound]] using rev_ind.
  - split; [reflexivity |]. intros id t Hbound. discriminate.
  - rewrite after_snoc. destruct e as [query_id t | closed]; cbn [Registry.step].
    + rewrite get_sse_streams.
      destruct (nonempty (Registry.subscribed_id query_id)) eqn:Hid.
      * split.
        -- rewrite lookup_insert_ne; [exact IHempty |].
           now apply nonempty_empty_ne.
        -- intros id t' Hbound.
           destruct (decide (Registry.subscribed_id query_id = id)) as [<- | Hne].
           ++ rewrite lookup_insert_eq in Hbound. injection Hbound as <-.
              exists query_id. split; [| reflexivity].
              apply in_or_app. right. now left.
           ++ rewrite lookup_insert_ne in Hbound by exact Hne.
              destruct (IHbound id t' Hbound) as (q & Hin & Hq).
              exists q. split; [| exact Hq]. apply in_or_app. now left.
      * split; [exact IHempty |]. intros id t' Hbound.
        destruct (IHbound id t' Hbound) as (q & Hin & Hq).
        exists q. split; [| exact Hq]. apply in_or_app. now left.
    + unfold Http.on_close. split.
      * destruct (decide (closed = EmptyString)) as [-> | Hne].
        -- apply lookup_delete_eq.
        -- rewrite lookup_delete_ne by exact Hne. exact IHempty.
      * intros id t Hbound.
        destruct (decide (closed = id)) as [-> | Hne].
        -- now rewrite lookup_delete_eq in Hbound.
        -- rewrite lookup_delete_ne in Hbound by exact Hne.
           destruct (IHbound id t Hbound) as (q & Hin & Hq).
           exists q. split; [| exact Hq]. apply in_or_app. now left.
Qed.

(** X11. Starting from the empty map, whatever [GET /sse] requests and
    [close] events occur, the empty id is never bound, and every transport
    the map holds was registered by a [GET /sse] under the very id it is bound
    to. *)
Theorem registry_invariant (es : list Registry.event) :
  Registry.after es !! EmptyString = None
  /\ forall id t,
       Registry.after es !! id = Some t ->
       exists query_id,
         In (Registry.Subscribe query_id t) es
         /\ Registry.subscribed_id query_id = id.
Proof. apply registry_invariant_core. Qed.

(** Witness of X11: after two subscriptions and a close of the first. *)
Lemma registry_invariant_witness :
  Registry.after [Registry.Subscribe (Some (JStr "abc")) Scenario.t0;
                  Registry.Subscribe (Some (JStr "xyz")) Scenario.t1;
                  Registry.Disconnect "abc"] !! EmptyString = None
  /\ exists query_id,
       In (Registry.Subscribe query_id Scenario.t1)
         [Registry.Subscribe (Some (JStr "abc")) Scenario.t0;
          Registry.Subscribe (Some (JStr "xyz")) Scenario.t1;
          Registry.Disconnect "abc"]
       /\ Registry.subscribed_id query_id = "xyz".
Proof.
  destruct (registry_invariant
              [Registry.Subscribe (Some (JStr "abc")) Scenario.t0;
               Registry.Subscribe (Some (JStr "xyz")) Scenario.t1;
               Registry.Disconnect "abc"]) as [Hempty Hbound].
  split; [exact Hempty |].
  apply (Hbound "xyz" Scenario.t1). vm_compute. reflexivity.
Defined.

Lemma session_id_sources req :
  Forall (fun v => Js.truthy v = false) (id_sources req) ->
  Http.session_id req = EmptyString.
Proof.
  unfold id_sources. intros Hfalsy.
  repeat match goal with
         | H : Forall _ (_ :: _) |- _ => apply Forall_cons in H as [? H]
         end.
  unfold Http.session_id, Js.or.
  repeat match goal with H : Js.truthy _ = false |- _ => rewrite H; clear H end.
  reflexivity.
Qed.

(** X12. A message posted without a usable id (no truthy [sessionId] or
    [id], in the query or in the body) is always answered 202 and dropped,
    whatever sessions are open. *)
Theorem post_messages_without_id w (es : list Registry.event) req :
  Forall (fun v => Js.truthy v = false) (id_sources req) ->
  Http.post_messages w (Registry.after es) req = ([Respond 202 EmptyString], Return tt).
Proof.
  intros Hfalsy. unfold Http.post_messages.
  rewrite (session_id_sources req Hfalsy).
  now rewrite (proj1 (registry_invariant_core es)).
Qed.

(** Witness of X12: an empty query id and a zero body id, one session open. *)
Lemma post_messages_without_id_witness :
  Http.post_messages Scenario.hr_six
    (Registry.after [Registry.Subscribe (Some (JStr "abc")) Scenario.t0])
    {| query_sessionId := None; query_id := Some (JStr EmptyString);
       body := [("id", JNum 0); ("content", JStr "hi")] |}
  = ([Respond 202 EmptyString], Return tt).
Proof.
  apply (post_messages_without_id Scenario.hr_six
           [Registry.Subscribe (Some (JStr "abc")) Scenario.t0]).
  repeat constructor.
Defined.

(** ** Sessions from registration to close *)

Lemma subscribed_id_string id : Registry.subscribed_id (Some (JStr id)) = id.
Proof. unfold Registry.subscribed_id, Js.or. now destruct id. Qed.






(** X15. Closing is idempotent and touches one id only; on an id that was
    free, registering and then closing gives back the map as it was. *)
Theorem on_close_round_trip (streams : gmap string transport) id t :
  Http.on_close (Http.on_close streams id) id = Http.on_close streams id
  /\ (forall id', id' <> id -> Http.on_close streams id !! id' = streams !! id')
  /\ (nonempty id = true ->
      streams !! id = None ->
      Http.on_close (Http.get_sse streams (Some (JStr id)) t).1 id = streams).
Proof.
  unfold Http.on_close. split; [| split].
  - apply map_eq. intros k. destruct (decide (id = k)) as [-> | Hne].
    + now rewrite !lookup_delete_eq.
    + now rewrite !lookup_delete_ne by exact Hne.
  - intros id' Hne. apply lookup_delete_ne. congruence.
  - intros Hid Hfree.
    rewrite get_sse_streams, subscribed_id_string, Hid.
    rewrite delete_insert_eq. now apply delete_id.
Qed.

(** Witness of X15: ["xyz"] is free while ["abc"] is open. *)
Lemma on_close_round_trip_witness :
  Http.on_close (Http.get_sse Scenario.open_abc (Some (JStr "xyz")) Scenario.t1).1 "xyz"
  = Scenario.open_abc.
Proof.
  destruct (on_close_round_trip Scenario.open_abc "xyz" Scenario.t1) as (_ & _ & Hundo).
  apply Hundo; [reflexivity | vm_compute; reflexivity].
Defined.

(** ** What a turn sends *)






Lemma field_spread_set_other o k v k' :
  k' <> k -> Js.field (Js.spread_set o k v) k' = Js.field o k'.
Proof.
  intros Hne. induction o as [| [k0 v0] rest IH]; cbn.
  - apply String.eqb_neq in Hne. now rewrite Hne.
  - destruct (String.eqb k k0) eqn:Hk; cbn.
    + apply String.eqb_eq in Hk as <-.
      apply String.eqb_neq in Hne. now rewrite Hne.
    + now rewrite IH.
Qed.

(** X18. The frame written for an assistant message or a tool result is the
    message itself with [done] set: it carries [done: true] even when the
    message said otherwise, and every other member of the message unchanged. *)
Theorem message_frame_keeps_members t msg :
  exists frame,
    Http.on_callback t (onAssistantMessage msg) = ([Send t frame], Return tt)
    /\ Http.on_callback t (onToolResult msg) = ([Send t frame], Return tt)
    /\ Js.field frame "done" = Some (JBool true)
    /\ forall k, k <> "done" -> Js.field frame k = Js.field msg k.
Proof.
  exists (Js.spread_set msg "done" (JBool true)). repeat split.
  - apply field_spread_set.
  - intros k Hk. now apply field_spread_set_other.
Qed.

Example message_frame_overrides_done :
  Http.on_callback Scenario.t0
    (onAssistantMessage [("done", JBool false); ("content", JStr "Hi")])
  = ([Send Scenario.t0 [("done", JBool true); ("content", JStr "Hi")]], Return tt).
Proof. reflexivity. Qed.

(** Witness of X18. *)
Lemma message_frame_keeps_members_witness :
  exists frame,
    Http.on_callback Scenario.t0 (onAssistantMessage [("content", JStr "Hi")])
    = ([Send Scenario.t0 frame], Return tt)
    /\ Js.field frame "done" = Some (JBool true)
    /\ Js.field frame "content" = Some (JStr "Hi").
Proof.
  destruct (message_frame_keeps_members Scenario.t0 [("content", JStr "Hi")])
    as (frame & Hmessage & _ & Hdone & Hkept).
  exists frame. split; [exact Hmessage |]. split; [exact Hdone |].
  rewrite (Hkept "content"); [reflexivity | discriminate].
Defined.

(** ** Dispatch in code, on every path *)

Lemma trace_create w cr : trace (create w cr) = [Create cr].
Proof. reflexivity. Qed.

Lemma trace_first_choice choices : trace (first_choice choices) = [].
Proof. now destruct choices. Qed.

Lemma trace_asserted message k : trace (asserted message k) = [].
Proof. now destruct message. Qed.

Lemma trace_parse w text : trace (parse w text) = [].
Proof. reflexivity. Qed.

Lemma trace_ret {A : Type} (a : A) : trace (ret a) = [].
Proof. reflexivity. Qed.

Lemma trace_weather w city : trace (weather w city) = [Invoke "getWeather" [city]].
Proof.
  unfold weather. rewrite trace_bind. cbn [emit trace result fst snd].
  rewrite trace_bind. cbn [trace result fst snd].
  now destruct (fetchWeather w city).
Qed.

Lemma trace_final_text w cr : trace (final_text w cr) = [Create cr].
Proof.
  unfold final_text. rewrite trace_bind, trace_create.
  destruct (result (create w cr)) as [second |]; [| reflexivity].
  rewrite trace_bind, trace_first_choice.
  destruct (result (first_choice second)) as [message |]; [| reflexivity].
  rewrite trace_bind, trace_asserted.
  now destruct (result (asserted message "content")).
Qed.

Lemma trace_token w client_id client_secret :
  trace (EmployeeAgentDemo.token w client_id client_secret)
  = [Invoke "getPSToken" [client_id; client_secret];
     Fetch (fetchPSToken_request client_id client_secret default_timeoutMs)].
Proof.
  unfold EmployeeAgentDemo.token, EmployeeAgentDemo.fetchPSToken.
  rewrite trace_bind. cbn [emit trace result fst snd].
  rewrite trace_try_catch, fetchPSToken_with_trace.
  now destruct (result (fetchPSToken_with _ _ _ _ _)).
Qed.

Create Rewrite HintDb traces.

#[local] Hint Rewrite @trace_bind @trace_ret trace_create trace_first_choice
  trace_asserted trace_parse silent_destructure trace_weather trace_final_text
  trace_token : traces.

Ltac walk :=
  repeat (autorewrite with traces;
          try match goal with
              | |- context [match ?x with _ => _ end] => destruct x
              end).

(** X19. Whatever the provider, the parser and the handlers do, one call of
    [runWithTools] asks the provider at most twice and enters at most one tool
    handler, and its first effect is the request that offers the tools. *)
Theorem runWithTools_bounded w prompt :
  (length (completions (trace (ThursdayDemo.runWithTools w prompt))) <= 2
   /\ length (invocations (trace (ThursdayDemo.runWithTools w prompt))) <= 1
   /\ exists rest,
       trace (ThursdayDemo.runWithTools w prompt)
       = Create (first_request ThursdayDemo.tools prompt) :: rest)
  /\ (length (completions (trace (EmployeeAgentDemo.runWithTools w prompt))) <= 2
      /\ length (invocations (trace (EmployeeAgentDemo.runWithTools w prompt))) <= 1
      /\ exists rest,
          trace (EmployeeAgentDemo.runWithTools w prompt)
          = Create (first_request EmployeeAgentDemo.tools prompt) :: rest).
Proof.
  split.
  - unfold ThursdayDemo.runWithTools.
    walk; cbn; repeat split; try lia; eauto.
  - unfold EmployeeAgentDemo.runWithTools.
    walk; cbn; repeat split; try lia; eauto.
Qed.

Lemma result_create w cr : result (create w cr) = openai w cr.
Proof. reflexivity. Qed.

Lemma result_parse w text : result (parse w text) = JSON_parse w text.
Proof. reflexivity. Qed.

Lemma result_weather w city :
  result (weather w city)
  = match fetchWeather w city with
    | Return s => Return (Some (JStr s))
    | Throw e => Throw e
    end.
Proof. unfold weather. run_M. now destruct (fetchWeather w city). Qed.

(** The token handler never throws: the error of the exchange becomes the
    tool's result. *)
Lemma result_token w client_id client_secret :
  result (EmployeeAgentDemo.token w client_id client_secret)
  = Return match result (EmployeeAgentDemo.fetchPSToken w client_id client_secret
                           default_timeoutMs) with
           | Return token => token
           | Throw message => Some (JStr ("❌  Error fetching token – " +:+ message))
           end.
Proof.
  unfold EmployeeAgentDemo.token.
  rewrite result_bind. cbn [emit result snd].
  rewrite result_try_catch.
  now destruct (result (EmployeeAgentDemo.fetchPSToken _ _ _ _)).
Qed.


Create Rewrite HintDb results.

#[local] Hint Rewrite @result_bind result_create result_parse result_weather
  result_token : results.




(** ** The 1.0.0 HTTP layer: frames and closes *)

Lemma frames_runWithTools w prompt :
  frames (trace (EmployeeAgentDemo.runWithTools w prompt)) = [].
Proof. unfold EmployeeAgentDemo.runWithTools. walk; reflexivity. Qed.

Lemma closes_after_done_lifted (tr : list effect) :
  frames tr = [] -> Wire.closes_after_done (map Wire.Do tr) = true.
Proof.
  induction tr as [| e tr IH]; [reflexivity |].
  destruct e; cbn; try exact IH. discriminate.
Qed.

Lemma closes_after_done_app (a b : list Wire.action) :
  Wire.closes_after_done a = true ->
  Wire.closes_after_done b = true ->
  Wire.closes_after_done (a ++ b) = true.
Proof.
  remember (length a) as n eqn:Hn. revert a Hn.
  induction n as [n IH] using lt_wf_ind. intros a Hn Ha Hb.
  destruct a as [| [e | t] a]; [exact Hb | | discriminate].
  destruct e; cbn in Ha |- *;
    try (apply (IH (length a)); [subst n; cbn; lia | reflexivity | exact Ha | exact Hb]).
  destruct (is_done frame).
  - destruct a as [| [e' | t'] a']; try discriminate.
    apply andb_true_iff in Ha as [Hsame Ha]. cbn. rewrite Hsame. cbn.
    apply (IH (length a')); [subst n; cbn; lia | reflexivity | exact Ha | exact Hb].
  - apply (IH (length a)); [subst n; cbn; lia | reflexivity | exact Ha | exact Hb].
Qed.

Lemma is_done_spread data last :
  is_done (Js.spread_set data "done" (JBool last)) = last.
Proof. unfold is_done. rewrite field_spread_set. now destruct last. Qed.

Lemma closes_after_done_writeFrame t data last :
  Wire.closes_after_done (fst (Wire.writeFrame t data last)) = true.
Proof.
  unfold Wire.writeFrame. cbn [fst Wire.closes_after_done].
  rewrite is_done_spread. destruct last; cbn; [| reflexivity].
  now rewrite Nat.eqb_refl.
Qed.

Lemma writeFrame_returns t data last : snd (Wire.writeFrame t data last) = Return tt.
Proof. reflexivity. Qed.

Lemma wire_bind_trace {A B : Type} (m : Wire.W A) (k : A -> Wire.W B) :
  fst (Wire.bind m k)
  = fst m ++ match snd m with
             | Return a => fst (k a)
             | Throw _ => []
             end.
Proof.
  destruct m as [tr [a | e]]; cbn.
  - now destruct (k a).
  - now rewrite app_nil_r.
Qed.

Lemma wire_bind_result {A B : Type} (m : Wire.W A) (k : A -> Wire.W B) :
  snd (Wire.bind m k)
  = match snd m with
    | Return a => snd (k a)
    | Throw e => Throw e
    end.
Proof.
  destruct m as [tr [a | e]]; cbn; [now destruct (k a) | reflexivity].
Qed.

Lemma closes_after_done_fire t cs saw :
  Wire.closes_after_done (fst (Wire.fire t cs saw)) = true.
Proof.
  revert saw. induction cs as [| c rest IH]; intros saw; [reflexivity |].
  cbn [Wire.fire]. rewrite wire_bind_trace.
  apply closes_after_done_app.
  - destruct c; apply closes_after_done_writeFrame.
  - destruct c; cbn [Wire.on_callback]; rewrite writeFrame_returns; apply IH.
Qed.

Lemma closes_after_done_handle w t req :
  Wire.closes_after_done (fst (Wire.handlePostMessage w t req)) = true.
Proof.
  unfold Wire.handlePostMessage. rewrite wire_bind_trace.
  apply closes_after_done_app; [reflexivity |].
  cbn [Wire.lift emit snd]. rewrite wire_bind_trace.
  apply closes_after_done_app; [apply closes_after_done_fire |].
  destruct (snd (Wire.fire t _ false)) as [saw |]; [| reflexivity].
  rewrite wire_bind_trace. cbn [Wire.lift fst snd map app].
  now destruct (mcp_settles w t req).
Qed.

(** X21. In the revision that closes transports, on every path of
    [POST /messages] each frame with [done: true] is followed at once by the
    [close] of the transport it was written to, and nothing else closes a
    transport. *)
Theorem wire_closes_after_done w (streams : gmap string transport) req :
  Wire.closes_after_done (fst (Wire.post_messages w streams req)) = true.
Proof.
  unfold Wire.post_messages.
  destruct (streams !! Wire.session_id req) as [t |]; [| reflexivity].
  rewrite wire_bind_trace.
  apply closes_after_done_app; [apply closes_after_done_handle |].
  destruct (snd (Wire.handlePostMessage w t req)) as [saw |]; [| reflexivity].
  destruct (negb saw && nonempty (trim _)); [| reflexivity].
  rewrite wire_bind_trace.
  apply closes_after_done_app.
  - cbn [Wire.lift fst]. apply closes_after_done_lifted, frames_runWithTools.
  - cbn [Wire.lift snd]. fold (result (EmployeeAgentDemo.runWithTools w
      (Js.String (Js.or (Js.field (body req) "content") (Some (JStr EmptyString)))))).
    destruct (result _); [apply closes_after_done_writeFrame | reflexivity].
Qed.

Example wire_message_then_tool :
  fst (Wire.post_messages Scenario.message_then_tool Scenario.open_abc
         (Scenario.post "abc" "hi"))
  = [Wire.Do (HandlePostMessage Scenario.t0 (Scenario.post "abc" "hi"));
     Wire.Do (Send Scenario.t0 [("role", JStr "assistant"); ("content", JStr "Hi");
                                ("done", JBool true)]);
     Wire.Close Scenario.t0;
     Wire.Do (Send Scenario.t0 [("role", JStr "tool"); ("name", JStr "getWeather");
                                ("done", JBool true)]);
     Wire.Close Scenario.t0].
Proof. vm_compute. reflexivity. Qed.

Lemma wire_pair_eta {A : Type} (m : Wire.W A) : m = (fst m, snd m).
Proof. now destruct m. Qed.




(** A message of white space only, the no-break space included, starts no
    fallback. *)
Example wire_blank_message :
  Wire.post_messages Scenario.unknown_tool Scenario.open_abc
    (Scenario.post "abc" (bytes [194; 160; 32; 226; 128; 175]))
  = ([Wire.Do (HandlePostMessage Scenario.t0
                 (Scenario.post "abc" (bytes [194; 160; 32; 226; 128; 175])))],
     Return tt).
Proof. vm_compute. reflexivity. Qed.

(** ** One id, two ways of reading it *)

Lemma nullish_falsy v : Js.nullish v = true -> Js.truthy v = false.
Proof. now destruct v as [[| | | | |]|]. Qed.

Lemma coalesce_or a b :
  (Js.nullish a = false -> Js.truthy a = true) -> Js.coalesce a b = Js.or a b.
Proof.
  unfold Js.coalesce, Js.or. intros Ha.
  destruct (Js.nullish a) eqn:Hnull.
  - now rewrite (nullish_falsy a Hnull).
  - now rewrite (Ha eq_refl).
Qed.

Lemma or_sound a b :
  (Js.nullish a = false -> Js.truthy a = true) ->
  (Js.nullish b = false -> Js.truthy b = true) ->
  Js.nullish (Js.or a b) = false -> Js.truthy (Js.or a b) = true.
Proof. unfold Js.or. intros Ha Hb. now destruct (Js.truthy a) eqn:Htruthy. Qed.

(** X23. The two revisions read the session id differently (one with [||],
    the other with [??]) and agree whenever no source of the id is present
    but falsy: with no empty string, zero or [false] among the two query
    parameters and the two body members, both resolve the same id. *)
Theorem session_id_agree req :
  Forall (fun v => Js.nullish v = false -> Js.truthy v = true) (id_sources req) ->
  Wire.session_id req = Http.session_id req.
Proof.
  unfold id_sources. intros Hsources.
  repeat match goal with
         | H : Forall _ (_ :: _) |- _ => apply Forall_cons in H as [? H]
         end.
  unfold Wire.session_id, Http.session_id.
  rewrite (coalesce_or (query_sessionId req)) by assumption.
  rewrite (coalesce_or (Js.or _ _)) by now apply or_sound.
  rewrite (coalesce_or (Js.or (Js.or _ _) _)) by (repeat apply or_sound; assumption).
  rewrite (coalesce_or (Js.or (Js.or (Js.or _ _) _) _))
    by (repeat apply or_sound; assumption).
  reflexivity.
Qed.

(** Witness of X23. *)
Lemma session_id_agree_witness :
  Wire.session_id (Scenario.post "abc" "hi") = Http.session_id (Scenario.post "abc" "hi").
Proof.
  apply session_id_agree. repeat constructor; discriminate.
Defined.

(** Where they part: an empty [sessionId] in the query hides the body's id
    from the [??] chain. *)
Example session_id_differ :
  Http.session_id {| query_sessionId := Some (JStr EmptyString); query_id := None;
                     body := [("id", JStr "abc")] |} = "abc"
  /\ Wire.session_id {| query_sessionId := Some (JStr EmptyString); query_id := None;
                        body := [("id", JStr "abc")] |} = EmptyString.
Proof. split; reflexivity. Qed.
